(** * tdbank: the account-history scraper of [client.go]

    A shallow embedding of the data-carrying part of package [tdbank]
    ([parseMoney], the six field handlers, [ParseAccountBalance] and
    [ParseAccountHistory]) together with the behaviour of the Go library
    functions they call ([strings.Map], [strings.TrimSpace],
    [strings.Contains], [strconv.ParseInt], [time.Time.Equal]).

    Conventions.
    - A Go string is represented by the sequence of its runes (code points).
      Text read from the browser is valid UTF-8, and on valid UTF-8 the
      functions used here act rune by rune ([strings.Map],
      [strings.TrimSpace]) or only distinguish ASCII bytes from the rest
      ([strconv.ParseInt]), so nothing is lost.
    - [int64] values are integers of [Z]; wrap-around is written with
      [wrap64] wherever the Go code does arithmetic on them.
    - A function returning [(T, error)] returns a pair [T * option error];
      [None] is Go's [nil] error.
    - [log.Printf] calls are not modelled: they change no value. *)

From Stdlib Require Import ZArith Bool String Ascii List Lia Sorted Permutation.
Import ListNotations.
Open Scope Z_scope.

(** ** Go values *)

Definition rune := Z.
Definition gostring := list rune.

(** The runes of an ASCII literal. *)
Definition str (s : string) : gostring :=
  map (fun a => Z.of_N (N_of_ascii a)) (list_ascii_of_string s).

Definition gostring_eqb (a b : gostring) : bool :=
  if list_eq_dec Z.eq_dec a b then true else false.

Definition minInt64 : Z := - 2 ^ 63.
Definition maxInt64 : Z := 2 ^ 63 - 1.
Definition maxUint64 : Z := 2 ^ 64 - 1.

(** Two's-complement reduction of an integer to [int64]. *)
Definition wrap64 (z : Z) : Z := (z + 2 ^ 63) mod 2 ^ 64 - 2 ^ 63.

(** Reduction to [uint64]. *)
Definition wrapU64 (z : Z) : Z := z mod 2 ^ 64.

Inductive NumErr : Type := ErrSyntax | ErrRange.

(** Go's [error] values that occur in this package. *)
Inductive error : Type :=
| errorString (msg : string)        (* errors.New(msg) *)
| NumError (Err : NumErr)           (* *strconv.NumError *)
| dateparseError (msg : string).    (* an error of the date parser *)

(** ** Package [strings] *)
Module strings.

(** [strings.IndexRune(s, r)]: position of the first [r] in [s], or -1. *)
Fixpoint IndexRune (s : gostring) (r : rune) : Z :=
  match s with
  | [] => -1
  | c :: t =>
      if c =? r then 0
      else let i := IndexRune t r in
           if i <? 0 then -1 else i + 1
  end.

(** [strings.Map(mapping, s)]: a negative result drops the rune. *)
Fixpoint Map (mapping : rune -> rune) (s : gostring) : gostring :=
  match s with
  | [] => []
  | c :: t =>
      let r := mapping c in
      if 0 <=? r then r :: Map mapping t else Map mapping t
  end.

(** [unicode.IsSpace]: the White_Space property. *)
Definition IsSpace (r : rune) : bool :=
  (9 <=? r) && (r <=? 13) || (r =? 32) || (r =? 133) || (r =? 160)
  || (r =? 5760) || (8192 <=? r) && (r <=? 8202)
  || (r =? 8232) || (r =? 8233) || (r =? 8239) || (r =? 8287)
  || (r =? 12288).

Fixpoint TrimLeftFunc (s : gostring) (f : rune -> bool) : gostring :=
  match s with
  | [] => []
  | c :: t => if f c then TrimLeftFunc t f else s
  end.

Definition TrimRightFunc (s : gostring) (f : rune -> bool) : gostring :=
  rev (TrimLeftFunc (rev s) f).

Definition TrimFunc (s : gostring) (f : rune -> bool) : gostring :=
  TrimRightFunc (TrimLeftFunc s f) f.

Definition TrimSpace (s : gostring) : gostring := TrimFunc s IsSpace.

Fixpoint HasPrefix (s prefix : gostring) : bool :=
  match prefix, s with
  | [], _ => true
  | _ :: _, [] => false
  | p :: prefix', c :: s' => (c =? p) && HasPrefix s' prefix'
  end.

(** [strings.Contains(s, substr)]. *)
Fixpoint Contains (s substr : gostring) : bool :=
  HasPrefix s substr ||
  match s with
  | [] => false
  | _ :: t => Contains t substr
  end.

End strings.

(** ** Package [strconv], at base 10 and bit size 64 *)
Module strconv.

Definition base : Z := 10.

(** [lower(c)] of [strconv]: sets bit 0x20. *)
Definition lower (c : Z) : Z := Z.lor c 32.

(** The smallest number such that [cutoff * base > maxUint64]. *)
Definition cutoff : Z := maxUint64 / 10 + 1.

(** The digit loop of [ParseUint], from the accumulator [n]. *)
Fixpoint parseUintLoop (s : gostring) (n : Z) : Z * option error :=
  match s with
  | [] => (n, None)
  | c :: t =>
      let digit :=
        if (48 <=? c) && (c <=? 57) then Some (c - 48)
        else if (97 <=? lower c) && (lower c <=? 122)
             then Some (lower c - 97 + 10)
             else None in
      match digit with
      | None => (0, Some (NumError ErrSyntax))
      | Some d =>
          if base <=? d then (0, Some (NumError ErrSyntax))
          else if cutoff <=? n then (maxUint64, Some (NumError ErrRange))
          else
            let n := wrapU64 (n * base) in
            let n1 := wrapU64 (n + d) in
            if (n1 <? n) || (maxUint64 <? n1)
            then (maxUint64, Some (NumError ErrRange))
            else parseUintLoop t n1
      end
  end.

Definition ParseUint (s : gostring) : Z * option error :=
  match s with
  | [] => (0, Some (NumError ErrSyntax))
  | _ => parseUintLoop s 0
  end.

(** [strconv.ParseInt(s, 10, 64)]. *)
Definition ParseInt (s : gostring) : Z * option error :=
  match s with
  | [] => (0, Some (NumError ErrSyntax))
  | c0 :: t =>
      let '(neg, s1) :=
        if c0 =? 43 then (false, t)
        else if c0 =? 45 then (true, t)
        else (false, s) in
      let '(un, err) := ParseUint s1 in
      match err with
      | Some (NumError ErrRange) | None =>
          let cutoff := 2 ^ 63 in
          if negb neg && (cutoff <=? un)
          then (cutoff - 1, Some (NumError ErrRange))
          else if neg && (cutoff <? un)
          then (- cutoff, Some (NumError ErrRange))
          else
            let n := wrap64 un in
            let n := if neg then wrap64 (- n) else n in
            (n, None)
      | Some e => (0, Some e)
      end
  end.

End strconv.

(** ** Package [time] *)
Module gotime.

(** A [time.Time]: an instant (seconds since January 1, year 1,
    00:00:00 UTC, and nanoseconds within the second) and the offset of
    its location east of UTC, in seconds. *)
Record Time : Type := mkTime { absSec : Z; nsec : Z; offset : Z }.

(** The zero value [time.Time{}]. *)
Definition zero : Time := mkTime 0 0 0.

(** [t.Equal(u)]: the same instant, whatever the locations. *)
Definition Equal (t u : Time) : bool :=
  (absSec t =? absSec u) && (nsec t =? nsec u).

(** [t.Before(u)]. *)
Definition Before (t u : Time) : bool :=
  (absSec t <? absSec u) || (absSec t =? absSec u) && (nsec t <? nsec u).

(** The calendar day of [t] in its location, as a day number: two times
    have the same [t.Date()] exactly when they have the same day number. *)
Definition dayNumber (t : Time) : Z := (absSec t + offset t) / 86400.

Definition sameDay (t u : Time) : bool := dayNumber t =? dayNumber u.

End gotime.

(** ** Package [tdbank] *)

Record HistoryRecord : Type := mkHistoryRecord {
  Index : Z;
  Date : gotime.Time;
  Type_ : gostring;
  Description : gostring;
  Debit : Z;
  Credit : Z;
  Balance : Z
}.

(** [HistoryRecord{}]. *)
Definition emptyRecord : HistoryRecord :=
  mkHistoryRecord 0 gotime.zero [] [] 0 0 0.

Definition set_Index (r : HistoryRecord) (v : Z) : HistoryRecord :=
  mkHistoryRecord v (Date r) (Type_ r) (Description r) (Debit r) (Credit r) (Balance r).
Definition set_Date (r : HistoryRecord) (v : gotime.Time) : HistoryRecord :=
  mkHistoryRecord (Index r) v (Type_ r) (Description r) (Debit r) (Credit r) (Balance r).
Definition set_Type (r : HistoryRecord) (v : gostring) : HistoryRecord :=
  mkHistoryRecord (Index r) (Date r) v (Description r) (Debit r) (Credit r) (Balance r).
Definition set_Description (r : HistoryRecord) (v : gostring) : HistoryRecord :=
  mkHistoryRecord (Index r) (Date r) (Type_ r) v (Debit r) (Credit r) (Balance r).
Definition set_Debit (r : HistoryRecord) (v : Z) : HistoryRecord :=
  mkHistoryRecord (Index r) (Date r) (Type_ r) (Description r) v (Credit r) (Balance r).
Definition set_Credit (r : HistoryRecord) (v : Z) : HistoryRecord :=
  mkHistoryRecord (Index r) (Date r) (Type_ r) (Description r) (Debit r) v (Balance r).
Definition set_Balance (r : HistoryRecord) (v : Z) : HistoryRecord :=
  mkHistoryRecord (Index r) (Date r) (Type_ r) (Description r) (Debit r) (Credit r) v.

(** What [ParseAccountBalance] and [ParseAccountHistory] read from the
    browser page: the text of every cell of every [tr] of the history
    table (row 0 is the header row), and the text of every element matched
    by [AccountBalanceSelector].  A failing [Count] is read as 0 and a
    failing [Text] as the empty string, as the code does by discarding the
    error. *)
Record Page : Type := mkPage {
  historyRows : list (list gostring);
  balanceSpans : list gostring
}.

(** [parseMoney]: strip dollar signs, commas and periods, then
    [strconv.ParseInt(value, 10, 64)]. *)
Definition parseMoney (value : gostring) : Z * option error :=
  let value :=
    strings.Map
      (fun r => if strings.IndexRune (str "$,.") r <? 0 then r else -1)
      value in
  strconv.ParseInt value.

Section Client.

(** [dateparse.ParseLocal] of package [github.com/araddon/dateparse]:
    the package under study only relies on its signature. *)
Variable ParseLocal : gostring -> gotime.Time * option error.

(** A field handler mutates the record it is given and reports an error:
    here it returns the record after the call. *)
Definition handler : Type := HistoryRecord -> gostring -> HistoryRecord * option error.

Definition DateFromString : handler := fun record value =>
  let value := strings.TrimSpace value in
  match ParseLocal value with
  | (date, Some err) => (record, Some err)
  | (date, None) => (set_Date record date, None)
  end.

Definition DebitFromString : handler := fun record value =>
  let value := strings.TrimSpace value in
  match value with
  | [] => (record, None)
  | _ =>
      match parseMoney value with
      | (debit, Some err) => (record, Some err)
      | (debit, None) => (set_Debit record debit, None)
      end
  end.

Definition CreditFromString : handler := fun record value =>
  let value := strings.TrimSpace value in
  match value with
  | [] => (record, None)
  | _ =>
      match parseMoney value with
      | (credit, Some err) => (record, Some err)
      | (credit, None) => (set_Credit record credit, None)
      end
  end.

Definition BalanceFromString : handler := fun record value =>
  let value := strings.TrimSpace value in
  match value with
  | [] => (record, None)
  | _ =>
      match parseMoney value with
      | (balance, Some err) => (record, Some err)
      | (balance, None) => (set_Balance record balance, None)
      end
  end.

Definition TypeFromString : handler := fun record value =>
  (set_Type record (strings.TrimSpace value), None).

Definition DescriptionFromString : handler := fun record value =>
  (set_Description record (strings.TrimSpace value), None).

(** The map literal [DefaultHandlers]; its keys are distinct. *)
Definition DefaultHandlers : list (gostring * handler) :=
  [ (str "Date", DateFromString);
    (str "Type", TypeFromString);
    (str "Description", DescriptionFromString);
    (str "Debit", DebitFromString);
    (str "Credit", CreditFromString);
    (str "Account Balance", BalanceFromString) ].

(** [method, found := DefaultHandlers[field]]. *)
Definition lookupHandler (field : gostring) : option handler :=
  option_map snd (find (fun kv => gostring_eqb (fst kv) field) DefaultHandlers).

Definition ParseAccountBalance (page : Page) : Z * option error :=
  let selections := balanceSpans page in
  let count := length selections in
  match count with
  | O => (0, Some (errorString "Unable to find account balance in page"))
  | _ =>
      let value := nth (count - 1) selections [] in
      match parseMoney value with
      | (balance, Some err) => (0, Some err)
      | (balance, None) => (balance, None)
      end
  end.

(** The loop over the header cells: the field names, and whether one of
    them contains "Balance". *)
Definition scanHeader (header : list gostring) : list gostring * bool :=
  fold_left
    (fun st text =>
       let '(fieldNames, hasBalance) := st in
       (fieldNames ++ [text],
        if strings.Contains text (str "Balance") then true else hasBalance))
    header ([], false).

(** The loop [for j := 0; j < m; j++] that fills one record from the
    cells of a row.  A cell beyond the end of the row reads as the empty
    string; a field without handler is skipped; a handler's error is
    logged and the loop goes on. *)
Definition fillRecord (m : nat) (fieldNames cells : list gostring) : HistoryRecord :=
  fold_left
    (fun record j =>
       let value := nth j cells [] in
       let field := nth j fieldNames [] in
       match lookupHandler field with
       | None => record
       | Some method => fst (method record value)
       end)
    (seq 0 m) emptyRecord.

(** One turn of the loop over the data rows, on the pair of the slice
    [history] and the running [balance]. *)
Definition rowStep (m : nat) (fieldNames : list gostring) (hasBalance : bool)
    (st : list HistoryRecord * Z) (cells : list gostring) : list HistoryRecord * Z :=
  let '(history, balance) := st in
  let record := fillRecord m fieldNames cells in
  let '(record, balance) :=
    if negb hasBalance
    then (set_Balance record balance,
          wrap64 (balance + wrap64 (Credit record - Debit record)))
    else (record, balance) in
  (record :: history, balance).

(** The last loop: the [Index] fields, from the counter [index] and the
    cursor [date]. *)
Fixpoint setIndex (index : Z) (date : gotime.Time) (history : list HistoryRecord)
    : list HistoryRecord :=
  match history with
  | [] => []
  | record :: rest =>
      if gotime.Equal (Date record) date
      then let index := index + 1 in
           set_Index record index :: setIndex index date rest
      else let index := 1 in
           let date := Date record in
           set_Index record index :: setIndex index date rest
  end.

Definition ParseAccountHistory (page : Page) : list HistoryRecord * option error :=
  let history : list HistoryRecord := [] in
  match historyRows page with
  | [] => (history, Some (errorString "No account history found in page"))
  | header :: dataRows =>
      let m := length header in
      let '(fieldNames, hasBalance) := scanHeader header in
      let seed :=
        if negb hasBalance then ParseAccountBalance page else (0, None) in
      match seed with
      | (_, Some err) => (history, Some err)
      | (balance, None) =>
          let '(history, _) :=
            fold_left (rowStep m fieldNames hasBalance) dataRows (history, balance) in
          (setIndex 0 gotime.zero history, None)
      end
  end.

End Client.

(** ** Reference definitions used in the statements *)

(** The spec's reading of [parseMoney]: remove every '$', ',' and '.', then
    read an optional sign and a non-empty run of decimal digits as a number
    that must fit a signed 64-bit integer. *)
Definition isMoneyPunct (r : rune) : bool := (r =? 36) || (r =? 44) || (r =? 46).

Definition isDigit (r : rune) : bool := (48 <=? r) && (r <=? 57).

Definition decimalValue (digits : gostring) : Z :=
  fold_left (fun n c => 10 * n + (c - 48)) digits 0.

Definition decimalInt64 (s : gostring) : option Z :=
  let '(neg, digits) :=
    match s with
    | c :: t => if c =? 43 then (false, t) else if c =? 45 then (true, t) else (false, s)
    | [] => (false, [])
    end in
  match digits with
  | [] => None
  | _ =>
      if forallb isDigit digits then
        let v := if neg then - decimalValue digits else decimalValue digits in
        if (minInt64 <=? v) && (v <=? maxInt64) then Some v else None
      else None
  end.

(** The accumulator of the digit loop, without overflow. *)
Definition accumulate (digits : gostring) (n : Z) : Z :=
  fold_left (fun n c => 10 * n + (c - 48)) digits n.

(** An unsigned numeral under a sign that fits [int64]. *)
Definition signed (neg : bool) (digits : gostring) : option Z :=
  match digits with
  | [] => None
  | _ =>
      if forallb isDigit digits then
        let v := if neg then - decimalValue digits else decimalValue digits in
        if (minInt64 <=? v) && (v <=? maxInt64) then Some v else None
      else None
  end.

(** What [strconv.ParseInt] does with the result of [ParseUint]. *)
Definition finishInt (neg : bool) (res : Z * option error) : Z * option error :=
  let '(un, err) := res in
  match err with
  | Some (NumError ErrRange) | None =>
      let cutoff := 2 ^ 63 in
      if negb neg && (cutoff <=? un)
      then (cutoff - 1, Some (NumError ErrRange))
      else if neg && (cutoff <? un)
      then (- cutoff, Some (NumError ErrRange))
      else
        let n := wrap64 un in
        let n := if neg then wrap64 (- n) else n in
        (n, None)
  | Some e => (0, Some e)
  end.

Definition parseMoney_spec (text : gostring) : option Z :=
  decimalInt64 (filter (fun r => negb (isMoneyPunct r)) text).

(** The rune of the minus sign. *)
Definition minusSign : rune := 45.

(** A cell is blank when nothing is left of it after trimming. *)
Definition blank (value : gostring) : bool :=
  match strings.TrimSpace value with [] => true | _ => false end.

(** The cells of a row that stand under a header cell equal to [name],
    among the first [length header] positions. *)
Definition cellsUnder (name : gostring) (header cells : list gostring) : list gostring :=
  map (fun j => nth j cells [])
      (filter (fun j => gostring_eqb (nth j header []) name) (seq 0 (length header))).

(** Some header cell contains "Balance". *)
Definition hasBalanceColumn (header : list gostring) : bool :=
  existsb (fun text => strings.Contains text (str "Balance")) header.

(** What a record of the result owes to the cells of its row under the
    headers "Debit" and "Credit". *)
Definition readsDebitCredit (header : list gostring) (r : HistoryRecord)
    (cells : list gostring) : Prop :=
  (minInt64 <= Debit r <= maxInt64 /\ minInt64 <= Credit r <= maxInt64) /\
  ((forall cell, In cell (cellsUnder (str "Debit") header cells) ->
                 ~ In minusSign cell) -> 0 <= Debit r) /\
  ((forall cell, In cell (cellsUnder (str "Credit") header cells) ->
                 ~ In minusSign cell) -> 0 <= Credit r) /\
  (forallb blank (cellsUnder (str "Debit") header cells) = true -> Debit r = 0) /\
  (forallb blank (cellsUnder (str "Credit") header cells) = true -> Credit r = 0) /\
  (~ In (str "Debit") header -> Debit r = 0) /\
  (~ In (str "Credit") header -> Credit r = 0).

(** No header cell contains "Balance". *)
Definition noBalanceColumn (header : list gostring) : Prop :=
  Forall (fun text => strings.Contains text (str "Balance") = false) header.

(** The running balance as the code leaves it: each record's balance is
    the balance of its successor plus the successor's credit minus the
    successor's debit, in [int64] arithmetic. *)
Fixpoint runsBackward (l : list HistoryRecord) : Prop :=
  match l with
  | a :: (b :: _) as t =>
      Balance a = wrap64 (Balance b + Credit b - Debit b) /\ runsBackward t
  | _ => True
  end.

(** The running balance in the other direction: each record's balance is
    its predecessor's balance plus its own credit minus its own debit,
    [prev] being the balance before the first record. *)
Fixpoint runsForward (prev : Z) (l : list HistoryRecord) : Prop :=
  match l with
  | [] => True
  | a :: t => Balance a = prev + Credit a - Debit a /\ runsForward (Balance a) t
  end.

(** The state of the running balance: [history] runs backward, its head
    determines [balance], and its last record carries the seed. *)
Definition balanceInv (seed : Z) (st : list HistoryRecord * Z) : Prop :=
  let '(history, balance) := st in
  runsBackward history /\
  match history with
  | [] => balance = seed
  | r :: _ =>
      balance = wrap64 (Balance r + Credit r - Debit r) /\
      exists init r0, history = init ++ [r0] /\ Balance r0 = seed
  end.

(** Non-decreasing by date, on adjacent records. *)
Definition dateLe (a b : HistoryRecord) : Prop := gotime.Before (Date b) (Date a) = false.

(** [run] is a maximal run of equal dates of [pre ++ run ++ post]: its
    records have equal dates, and neither the record before it nor the
    record after it has that date. *)
Definition maximalRun (pre run post : list HistoryRecord) : Prop :=
  run <> [] /\
  (forall a b, In a run -> In b run -> gotime.Equal (Date a) (Date b) = true) /\
  (forall pre' p a, pre = pre' ++ [p] -> In a run ->
                    gotime.Equal (Date a) (Date p) = false) /\
  (forall q post' a, post = q :: post' -> In a run ->
                     gotime.Equal (Date q) (Date a) = false).

(** The law of the index pass, from a counter and a cursor date: a record
    whose date equals the date before it continues the count, any other
    record restarts it at 1. *)
Fixpoint indexedFrom (index : Z) (date : gotime.Time) (out : list HistoryRecord) : Prop :=
  match out with
  | [] => True
  | r :: rest =>
      Index r = (if gotime.Equal (Date r) date then index + 1 else 1) /\
      indexedFrom (Index r) (Date r) rest
  end.

(** A record of the output carries the fields read from its row. *)
Definition fromRow (r filled : HistoryRecord) : Prop :=
  Date r = Date filled /\ Type_ r = Type_ filled /\
  Description r = Description filled /\
  Debit r = Debit filled /\ Credit r = Credit filled.

(** ** A date parser to run the model on concrete pages

    [dateparse.ParseLocal] itself is not modelled.  To evaluate the model
    on concrete pages, [parseNumericDate] stands in for it on two numeric
    forms only, "MM/DD/YYYY" and "MM/DD/YYYY HH:MM" with a four-digit year
    and a day that exists in the month; on these it gives the instant that
    [dateparse.ParseLocal] gives when the local zone is UTC.  Every other
    text is an error here, also the texts of other forms that the real
    parser reads, so nothing is to be concluded from it about such texts.
    No theorem depends on it: the theorems hold for every parser. *)

Fixpoint splitOn (sep : rune) (s : gostring) : list gostring :=
  match s with
  | [] => [[]]
  | c :: t =>
      match splitOn sep t with
      | [] => [[]]
      | w :: ws => if c =? sep then [] :: w :: ws else (c :: w) :: ws
      end
  end.

Definition number (s : gostring) : option Z :=
  match s with
  | [] => None
  | _ => if forallb isDigit s then Some (decimalValue s) else None
  end.

(** Days from January 1 of year 1 to the given day of the proleptic
    Gregorian calendar. *)
Definition daysFromCivil (y m d : Z) : Z :=
  let y' := if m <=? 2 then y - 1 else y in
  let era := y' / 400 in
  let yoe := y' - era * 400 in
  let doy := (153 * (if 2 <? m then m - 3 else m + 9) + 2) / 5 + d - 1 in
  let doe := yoe * 365 + yoe / 4 - yoe / 100 + doy in
  era * 146097 + doe - 306.

Definition isLeapYear (y : Z) : bool :=
  (y mod 4 =? 0) && (negb (y mod 100 =? 0) || (y mod 400 =? 0)).

Definition daysInMonth (y m : Z) : Z :=
  if m =? 2 then (if isLeapYear y then 29 else 28)
  else if (m =? 4) || (m =? 6) || (m =? 9) || (m =? 11) then 30
  else 31.

(** The year is written with four digits. *)
Definition fourDigitYear (datePart : gostring) : bool :=
  match splitOn 47 datePart with
  | [_; _; y] => Nat.eqb (length y) 4
  | _ => false
  end.

Definition parseNumericDate (s : gostring) : gotime.Time * option error :=
  let bad := (gotime.zero, Some (dateparseError "Could not find date format")) in
  let '(datePart, timePart) :=
    match splitOn 32 s with
    | [d] => (d, Some (str "00:00"))
    | [d; t] => (d, Some t)
    | _ => ([], None)
    end in
  match map number (splitOn 47 datePart), option_map (fun t => map number (splitOn 58 t)) timePart with
  | [Some mo; Some d; Some y], Some [Some hh; Some mi] =>
      if fourDigitYear datePart
         && (1 <=? mo) && (mo <=? 12) && (1 <=? d) && (d <=? daysInMonth y mo)
         && (hh <=? 23) && (mi <=? 59)
      then (gotime.mkTime (daysFromCivil y mo d * 86400 + hh * 3600 + mi * 60) 0 0, None)
      else bad
  | _, _ => bad
  end.

(** ** Pages to run the model on *)

(** A card account: no balance column, rows newest first, the balance in
    the last matching element. *)
Definition pageCard : Page :=
  mkPage
    [ [str "Date"; str "Description"; str "Debit"; str "Credit"];
      [str "01/03/2023"; str "Payment"; str ""; str "1.00"];
      [str "01/02/2023"; str " Coffee "; str "2.50"; str ""] ]
    [str "Available"; str "$100.00"].

(** Two transactions of one day, without balance column. *)
Definition pageOneDay : Page :=
  mkPage
    [ [str "Date"; str "Description"; str "Debit"; str "Credit"];
      [str "01/02/2023"; str "Coffee"; str "4.50"; str ""];
      [str "01/02/2023"; str "Refund"; str ""; str "4.50"] ]
    [str "$100.00"].

(** A table with a balance column whose rows come oldest first. *)
Definition pageOldestFirst : Page :=
  mkPage
    [ [str "Date"; str "Account Balance"];
      [str "01/01/2023"; str "1.00"];
      [str "01/02/2023"; str "2.00"] ]
    [].

(** A table with a header row and nothing else. *)
Definition pageHeaderOnly : Page :=
  mkPage [ [str "Date"; str "Account Balance"] ] [].

(** A table without any row. *)
Definition pageNoRows : Page := mkPage [] [].

(** A debit cell with a minus sign. *)
Definition pageNegativeDebit : Page :=
  mkPage
    [ [str "Date"; str "Debit"; str "Account Balance"];
      [str "01/02/2023"; str "-5.00"; str "1.00"] ]
    [].

(** No balance column and no element for the balance. *)
Definition pageNoSeed : Page :=
  mkPage
    [ [str "Date"; str "Debit"];
      [str "01/02/2023"; str "5.00"] ]
    [].

(** Three rows of one calendar day, the two older ones at the same time. *)
Definition pageRepeatedTime : Page :=
  mkPage
    [ [str "Date"; str "Account Balance"];
      [str "01/02/2023 10:30"; str "3.00"];
      [str "01/02/2023 09:15"; str "2.00"];
      [str "01/02/2023 09:15"; str "1.00"] ]
    [].

(** Two rows of one calendar day with different times, and an older row
    of which the date does not parse. *)
Definition pageSameDay : Page :=
  mkPage
    [ [str "Date"; str "Account Balance"];
      [str "01/02/2023 10:30"; str "3.00"];
      [str "01/02/2023 09:15"; str "2.00"];
      [str "pending"; str "1.00"] ]
    [].

(** ** Definitions for the properties of the rest of the code *)

(** The cells of a row under a header cell equal to [name], among the
    first [m] positions; [cellsUnder] is the case of the whole header. *)
Definition cellsUnderFirst (m : nat) (name : gostring) (header cells : list gostring)
    : list gostring :=
  map (fun j => nth j cells [])
      (filter (fun j => gostring_eqb (nth j header []) name) (seq 0 m)).

(** One handler run down the cells of a column, from the empty record. *)
Definition applyColumn (method : handler) (cells : list gostring) : HistoryRecord :=
  fold_left (fun record value => fst (method record value)) cells emptyRecord.

(** A row cut, or padded with empty cells, to the width [m]. *)
Definition padRow (m : nat) (cells : list gostring) : list gostring :=
  firstn m (cells ++ repeat [] m).

(** The loop of [Login] over [auth.SecurityQuestions]: [answers] lists the
    entries of the map in the order in which the [range] statement yields
    them, an order that Go leaves unspecified; the result is the value of
    the variable [answer] after the loop. *)
Definition chooseAnswer (answers : list (gostring * gostring)) (question : gostring)
    : gostring :=
  fold_left
    (fun answer qa =>
       let '(q, a) := qa in
       if strings.HasPrefix question q then a else answer)
    answers [].

(** What [Login] types into the answer field: nothing ([None]) when the
    variable is the empty string, in which case it calls [log.Fatalf]. *)
Definition securityAnswer (answers : list (gostring * gostring)) (question : gostring)
    : option gostring :=
  match chooseAnswer answers question with
  | [] => None
  | answer => Some answer
  end.

(** The record with the field that the header [field] names put back to
    its zero value; the record itself when [field] names none. *)
Definition withoutField (field : gostring) (r : HistoryRecord) : HistoryRecord :=
  if gostring_eqb field (str "Date") then set_Date r gotime.zero
  else if gostring_eqb field (str "Type") then set_Type r []
  else if gostring_eqb field (str "Description") then set_Description r []
  else if gostring_eqb field (str "Debit") then set_Debit r 0
  else if gostring_eqb field (str "Credit") then set_Credit r 0
  else if gostring_eqb field (str "Account Balance") then set_Balance r 0
  else r.

(** The fields of [r] are what each handler makes of the cells under its
    own header. *)
Definition readsOwnColumns (ParseLocal : gostring -> gotime.Time * option error)
    (header : list gostring) (r : HistoryRecord) (cells : list gostring) : Prop :=
  Date r = Date (applyColumn (DateFromString ParseLocal)
                   (cellsUnder (str "Date") header cells)) /\
  Type_ r = Type_ (applyColumn TypeFromString (cellsUnder (str "Type") header cells)) /\
  Description r = Description (applyColumn DescriptionFromString
                                 (cellsUnder (str "Description") header cells)) /\
  Debit r = Debit (applyColumn DebitFromString (cellsUnder (str "Debit") header cells)) /\
  Credit r = Credit (applyColumn CreditFromString
                       (cellsUnder (str "Credit") header cells)).

(** The last cell under "Debit", "Credit" or "Date" gives the field when
    it can be read. *)
Definition lastCellWins (ParseLocal : gostring -> gotime.Time * option error)
    (header : list gostring) (r : HistoryRecord) (cells : list gostring) : Prop :=
  (forall init cell v,
      cellsUnder (str "Debit") header cells = init ++ [cell] ->
      blank cell = false ->
      parseMoney (strings.TrimSpace cell) = (v, None) -> Debit r = v) /\
  (forall init cell v,
      cellsUnder (str "Credit") header cells = init ++ [cell] ->
      blank cell = false ->
      parseMoney (strings.TrimSpace cell) = (v, None) -> Credit r = v) /\
  (forall init cell d,
      cellsUnder (str "Date") header cells = init ++ [cell] ->
      ParseLocal (strings.TrimSpace cell) = (d, None) -> Date r = d).

(** A text without white space at either end. *)
Definition trimmed (s : gostring) : Prop :=
  match s with
  | [] => True
  | c :: _ => strings.IsSpace c = false /\ strings.IsSpace (last s c) = false
  end.

(** [Type] and [Description] are the trimmed text of the last cell under
    their header. *)
Definition readsTrimmedText (header : list gostring) (r : HistoryRecord)
    (cells : list gostring) : Prop :=
  Type_ r = strings.TrimSpace (last (cellsUnder (str "Type") header cells) []) /\
  Description r
  = strings.TrimSpace (last (cellsUnder (str "Description") header cells) []) /\
  trimmed (Type_ r) /\ trimmed (Description r).

(** [Balance] is read from the cells under "Account Balance". *)
Definition readsBalanceColumn (header : list gostring) (r : HistoryRecord)
    (cells : list gostring) : Prop :=
  Balance r = Balance (applyColumn BalanceFromString
                         (cellsUnder (str "Account Balance") header cells)) /\
  (forall init cell v,
      cellsUnder (str "Account Balance") header cells = init ++ [cell] ->
      blank cell = false ->
      parseMoney (strings.TrimSpace cell) = (v, None) -> Balance r = v) /\
  (~ In (str "Account Balance") header -> Balance r = 0).

(** The runes that [parseMoney] accepts: digits, the three signs it
    removes, and the signs '+' and '-'. *)
Definition isMoneyRune (r : rune) : bool :=
  isDigit r || isMoneyPunct r || (r =? 43) || (r =? 45).

(** A header cell that contains "Balance" without being "Account Balance",
    on a page that shows a balance. *)
Definition pageBalanceLabel : Page :=
  mkPage
    [ [str "Date"; str "Debit"; str "Balance"];
      [str "01/03/2023"; str "1.00"; str "99.00"];
      [str "01/02/2023"; str "2.50"; str "100.00"] ]
    [str "$99.00"].

(** A table of which one row is short, one is long, and one column has no
    handler. *)
Definition pageRagged : Page :=
  mkPage
    [ [str "Date"; str "Memo"; str "Debit"; str "Account Balance"];
      [str "01/03/2023"; str "x"; str "1.00"; str "99.00"; str "extra"];
      [str "01/02/2023"; str "y"] ]
    [].

(** * Properties *)

Ltac bool_lia :=
  repeat match goal with
         | H : (_ && _) = true |- _ => apply andb_true_iff in H; destruct H
         | H : (_ && _) = false |- _ => apply andb_false_iff in H; destruct H
         | H : (_ || _) = true |- _ => apply orb_true_iff in H; destruct H
         | H : (_ || _) = false |- _ => apply orb_false_iff in H; destruct H
         end;
  lia.

(** ** Integer reductions *)

Lemma wrap64_small (z : Z) : minInt64 <= z <= maxInt64 -> wrap64 z = z.
Proof.
  unfold wrap64, minInt64, maxInt64. intros H.
  rewrite Z.mod_small; lia.
Qed.

Lemma wrap64_range (z : Z) : minInt64 <= wrap64 z <= maxInt64.
Proof.
  unfold wrap64, minInt64, maxInt64.
  pose proof (Z.mod_pos_bound (z + 2 ^ 63) (2 ^ 64) ltac:(lia)). lia.
Qed.

Lemma wrap64_add_idemp_r (a b : Z) : wrap64 (a + wrap64 b) = wrap64 (a + b).
Proof.
  unfold wrap64.
  replace (a + ((b + 2 ^ 63) mod 2 ^ 64 - 2 ^ 63) + 2 ^ 63)
    with (a + (b + 2 ^ 63) mod 2 ^ 64) by lia.
  rewrite Z.add_mod_idemp_r by lia.
  f_equal. f_equal. lia.
Qed.

(** ** [strings] *)

Lemma gostring_eqb_eq (a b : gostring) : gostring_eqb a b = true <-> a = b.
Proof.
  unfold gostring_eqb. destruct (list_eq_dec Z.eq_dec a b); split; congruence.
Qed.

Lemma IndexRune_punct (r : rune) :
  (strings.IndexRune (str "$,.") r <? 0) = negb (isMoneyPunct r).
Proof.
  unfold isMoneyPunct.
  change (str "$,.") with [36; 44; 46]. cbn [strings.IndexRune].
  rewrite (Z.eqb_sym r 36), (Z.eqb_sym r 44), (Z.eqb_sym r 46).
  destruct (36 =? r); [reflexivity|].
  destruct (44 =? r); [reflexivity|].
  destruct (46 =? r); reflexivity.
Qed.

(** On runes that are code points, stripping with [strings.Map] is a
    filter. *)
Lemma Map_strip (value : gostring) :
  Forall (fun r => 0 <= r) value ->
  strings.Map (fun r => if strings.IndexRune (str "$,.") r <? 0 then r else -1) value
  = filter (fun r => negb (isMoneyPunct r)) value.
Proof.
  induction 1 as [|r t Hr _ IH]; [reflexivity|].
  cbn [strings.Map filter]. rewrite IndexRune_punct, IH.
  destruct (isMoneyPunct r); cbn [negb].
  - reflexivity.
  - destruct (0 <=? r) eqn:E; [reflexivity | lia].
Qed.

(** ** [strconv.ParseInt] reads decimal numerals *)

Lemma accumulate_ge (digits : gostring) (n : Z) :
  forallb isDigit digits = true -> 0 <= n -> n <= accumulate digits n.
Proof.
  unfold accumulate.
  revert n. induction digits as [|c t IH]; intros n Hd Hn;
    cbn [forallb fold_left] in *; [lia|].
  apply andb_true_iff in Hd as [Hc Ht]. unfold isDigit in Hc.
  apply andb_true_iff in Hc as [Hc1 Hc2].
  specialize (IH (10 * n + (c - 48)) Ht). lia.
Qed.

Lemma digit_class (c : rune) :
  isDigit c = false ->
  (if (97 <=? strconv.lower c) && (strconv.lower c <=? 122)
   then strconv.base <=? strconv.lower c - 97 + 10 else true) = true.
Proof.
  intros _. destruct ((97 <=? strconv.lower c) && (strconv.lower c <=? 122)) eqn:E;
    [|reflexivity].
  unfold strconv.base. apply andb_true_iff in E as [E _]. lia.
Qed.

Lemma parseUintLoop_syntax (s : gostring) (n : Z) :
  forallb isDigit s = false ->
  strconv.parseUintLoop s n = (0, Some (NumError ErrSyntax)) \/
  strconv.parseUintLoop s n = (maxUint64, Some (NumError ErrRange)).
Proof.
  revert n. induction s as [|c t IH]; intros n Hd; [discriminate|].
  cbn [forallb] in Hd. cbn [strconv.parseUintLoop].
  destruct (isDigit c) eqn:Hc.
  - cbn [andb] in Hd. unfold isDigit in Hc. rewrite Hc.
    destruct (strconv.base <=? c - 48); [now left|].
    destruct (strconv.cutoff <=? n); [now right|].
    match goal with |- context [if ?b then _ else _] => destruct b end;
      [now right | now apply IH].
  - pose proof (digit_class c Hc) as Hl. unfold isDigit in Hc. rewrite Hc.
    destruct ((97 <=? strconv.lower c) && (strconv.lower c <=? 122)).
    + rewrite Hl. now left.
    + now left.
Qed.

Lemma parseUintLoop_digits (s : gostring) (n : Z) :
  forallb isDigit s = true -> 0 <= n <= maxUint64 ->
  strconv.parseUintLoop s n =
    if accumulate s n <=? maxUint64 then (accumulate s n, None)
    else (maxUint64, Some (NumError ErrRange)).
Proof.
  revert n. induction s as [|c t IH]; intros n Hd Hn.
  - unfold accumulate. cbn [strconv.parseUintLoop fold_left].
    destruct (n <=? maxUint64) eqn:E; [reflexivity | lia].
  - cbn [forallb] in Hd. apply andb_true_iff in Hd as [Hc Ht].
    pose proof (accumulate_ge t (10 * n + (c - 48)) Ht) as Hge.
    change (accumulate (c :: t) n) with (accumulate t (10 * n + (c - 48))).
    cbn [strconv.parseUintLoop].
    unfold isDigit in Hc. rewrite Hc.
    apply andb_true_iff in Hc as [Hc1 Hc2].
    unfold strconv.base, strconv.cutoff, wrapU64, maxUint64 in *.
    change (2 ^ 64) with 18446744073709551616 in *.
    change ((18446744073709551616 - 1) / 10 + 1) with 1844674407370955162.
    destruct (10 <=? c - 48) eqn:E1; [lia|].
    destruct (1844674407370955162 <=? n) eqn:E2.
    + destruct (accumulate t (10 * n + (c - 48)) <=? 18446744073709551616 - 1) eqn:E3;
        [lia | reflexivity].
    + rewrite (Z.mod_small (n * 10)) by lia.
      destruct (n * 10 + (c - 48) <=? 18446744073709551615) eqn:E4.
      * rewrite (Z.mod_small (n * 10 + (c - 48))) by lia.
        replace (n * 10 + (c - 48) <? n * 10) with false by lia.
        replace (18446744073709551616 - 1 <? n * 10 + (c - 48)) with false by lia.
        cbn [orb]. replace (n * 10 + (c - 48)) with (10 * n + (c - 48)) by lia.
        apply IH; [exact Ht | lia].
      * assert (Hm : (n * 10 + (c - 48)) mod 18446744073709551616
                     = n * 10 + (c - 48) - 18446744073709551616).
        { symmetry. apply (Z.mod_unique _ _ 1); lia. }
        rewrite Hm.
        replace (n * 10 + (c - 48) - 18446744073709551616 <? n * 10) with true by lia.
        cbn [orb].
        destruct (accumulate t (10 * n + (c - 48)) <=? 18446744073709551616 - 1) eqn:E3;
          [lia | reflexivity].
Qed.

Lemma ParseUint_decimal (digits : gostring) :
  digits <> [] ->
  if forallb isDigit digits
  then strconv.ParseUint digits =
         if decimalValue digits <=? maxUint64 then (decimalValue digits, None)
         else (maxUint64, Some (NumError ErrRange))
  else strconv.ParseUint digits = (0, Some (NumError ErrSyntax)) \/
       strconv.ParseUint digits = (maxUint64, Some (NumError ErrRange)).
Proof.
  intros Hne. destruct digits as [|c t]; [congruence|].
  unfold strconv.ParseUint.
  destruct (forallb isDigit (c :: t)) eqn:Hd.
  - apply parseUintLoop_digits; [exact Hd | unfold maxUint64; lia].
  - apply parseUintLoop_syntax; exact Hd.
Qed.

Lemma finishInt_signed (neg : bool) (digits : gostring) :
  match signed neg digits with
  | Some v => finishInt neg (strconv.ParseUint digits) = (v, None)
  | None => exists v e, finishInt neg (strconv.ParseUint digits) = (v, Some e)
  end.
Proof.
  destruct digits as [|c t]; [cbn; eauto|].
  pose proof (ParseUint_decimal (c :: t) ltac:(discriminate)) as HU.
  unfold signed.
  destruct (forallb isDigit (c :: t)) eqn:Hd.
  - assert (H0 : 0 <= decimalValue (c :: t)).
    { apply (accumulate_ge (c :: t) 0 Hd). lia. }
    rewrite HU. clear HU.
    set (v := decimalValue (c :: t)) in *. clearbody v.
    unfold finishInt, wrap64, minInt64, maxInt64, maxUint64.
    change (2 ^ 64) with 18446744073709551616.
    change (2 ^ 63) with 9223372036854775808.
    destruct (v <=? 18446744073709551616 - 1) eqn:E1; destruct neg; cbn [negb andb];
      repeat match goal with
             | |- context [if ?b then _ else _] => destruct b eqn:?
             end;
      try (exfalso; bool_lia); eauto;
      f_equal; Z.div_mod_to_equations; lia.
  - destruct HU as [-> | ->]; unfold finishInt; [eauto|].
    destruct neg; cbn; eauto.
Qed.

Lemma ParseInt_decimalInt64 (s : gostring) :
  match decimalInt64 s with
  | Some v => strconv.ParseInt s = (v, None)
  | None => exists v e, strconv.ParseInt s = (v, Some e)
  end.
Proof.
  destruct s as [|c t]; [cbn; eauto|].
  unfold decimalInt64, strconv.ParseInt.
  destruct (c =? 43); [exact (finishInt_signed false t)|].
  destruct (c =? 45); [exact (finishInt_signed true t)|].
  exact (finishInt_signed false (c :: t)).
Qed.

Lemma ParseInt_ok_range (s : gostring) (v : Z) :
  strconv.ParseInt s = (v, None) -> minInt64 <= v <= maxInt64.
Proof.
  intros H. pose proof (ParseInt_decimalInt64 s) as HS.
  destruct (decimalInt64 s) as [v'|] eqn:E.
  - rewrite H in HS. injection HS as <-.
    unfold decimalInt64 in E.
    destruct (match s with
              | [] => (false, [])
              | c :: t => if c =? 43 then (false, t)
                          else if c =? 45 then (true, t) else (false, s)
              end) as [neg digits].
    destruct digits; [discriminate|].
    destruct (forallb isDigit (r :: digits)); [|discriminate].
    match type of E with (if ?b then _ else _) = _ => destruct b eqn:Hr end;
      [|discriminate].
    injection E as <-. bool_lia.
  - destruct HS as (v' & e & HS). congruence.
Qed.

Lemma ParseInt_ok_nonneg (s : gostring) (v : Z) :
  strconv.ParseInt s = (v, None) -> ~ In minusSign s -> 0 <= v.
Proof.
  intros H Hminus. pose proof (ParseInt_decimalInt64 s) as HS.
  destruct (decimalInt64 s) as [v'|] eqn:E.
  - rewrite H in HS. injection HS as <-.
    unfold decimalInt64 in E.
    destruct s as [|c t]; [discriminate|].
    destruct (c =? 45) eqn:E45.
    { exfalso. apply Hminus. left. now apply Z.eqb_eq. }
    assert (exists digits, forallb isDigit digits = true /\ v = decimalValue digits)
      as (digits & Hd & ->).
    { destruct (c =? 43).
      - destruct t as [|c1 t1]; [discriminate|].
        destruct (forallb isDigit (c1 :: t1)) eqn:Hd; [|discriminate].
        match type of E with (if ?b then _ else _) = _ => destruct b end;
          [|discriminate].
        injection E as <-. eauto.
      - destruct (forallb isDigit (c :: t)) eqn:Hd; [|discriminate].
        match type of E with (if ?b then _ else _) = _ => destruct b end;
          [|discriminate].
        injection E as <-. eauto. }
    apply (accumulate_ge digits 0 Hd). lia.
  - destruct HS as (v' & e & HS). congruence.
Qed.

Lemma In_Map_strip (r : rune) (value : gostring) :
  In r (strings.Map (fun r => if strings.IndexRune (str "$,.") r <? 0 then r else -1) value) ->
  In r value.
Proof.
  induction value as [|c t IH]; cbn [strings.Map]; [tauto|].
  destruct (strings.IndexRune (str "$,.") c <? 0).
  - destruct (0 <=? c); cbn [In]; tauto.
  - change (0 <=? -1) with false. cbn [In]. tauto.
Qed.

Lemma parseMoney_ok_range (value : gostring) (v : Z) :
  parseMoney value = (v, None) -> minInt64 <= v <= maxInt64.
Proof. apply ParseInt_ok_range. Qed.

Lemma parseMoney_ok_nonneg (value : gostring) (v : Z) :
  parseMoney value = (v, None) -> ~ In minusSign value -> 0 <= v.
Proof.
  intros H Hm. apply (ParseInt_ok_nonneg _ _ H).
  intros Hin. apply Hm. now apply In_Map_strip in Hin.
Qed.

(** C2. [parseMoney] removes every '$', ',' and '.' and reads what is left
    as a signed decimal numeral that fits 64 bits: on a text of code points
    it returns the value of [parseMoney_spec] without error when there is
    one, and an error when there is none.  In particular "$1,234.56" gives
    123456, "12.00" gives 1200, and "" and "abc" give an error. *)
Theorem parseMoney_refines_spec :
  (forall value : gostring,
      Forall (fun r => 0 <= r) value ->
      match parseMoney_spec value with
      | Some v => parseMoney value = (v, None)
      | None => exists v e, parseMoney value = (v, Some e)
      end) /\
  parseMoney (str "$1,234.56") = (123456, None) /\
  parseMoney (str "12.00") = (1200, None) /\
  (exists v e, parseMoney (str "") = (v, Some e)) /\
  (exists v e, parseMoney (str "abc") = (v, Some e)).
Proof.
  split; [|repeat split].
  - intros value Hv. unfold parseMoney, parseMoney_spec.
    rewrite (Map_strip value Hv). apply ParseInt_decimalInt64.
  - now exists 0, (NumError ErrSyntax).
  - now exists 0, (NumError ErrSyntax).
Qed.

Lemma parseMoney_refines_spec_witness :
  parseMoney (str "$1,234.56") = (123456, None).
Proof.
  apply (proj1 parseMoney_refines_spec (str "$1,234.56")).
  repeat constructor; lia.
Defined.

(** ** [time.Time.Equal] is an equivalence *)

Lemma Equal_refl (t : gotime.Time) : gotime.Equal t t = true.
Proof. unfold gotime.Equal. now rewrite !Z.eqb_refl. Qed.

Lemma Equal_sym (t u : gotime.Time) : gotime.Equal t u = gotime.Equal u t.
Proof. unfold gotime.Equal. now rewrite (Z.eqb_sym (gotime.absSec t)), (Z.eqb_sym (gotime.nsec t)). Qed.

Lemma Equal_trans_l (t u v : gotime.Time) :
  gotime.Equal t u = true -> gotime.Equal v t = gotime.Equal v u.
Proof.
  unfold gotime.Equal. intros H. apply andb_true_iff in H as [H1 H2].
  apply Z.eqb_eq in H1, H2. now rewrite H1, H2.
Qed.

Lemma noBalanceColumn_bool (header : list gostring) :
  hasBalanceColumn header = false -> noBalanceColumn header.
Proof.
  unfold hasBalanceColumn, noBalanceColumn.
  induction header as [|text t IH]; cbn [existsb]; intros H; constructor.
  - now apply orb_false_iff in H.
  - apply IH. now apply orb_false_iff in H.
Qed.

Section History.

Variable ParseLocal : gostring -> gotime.Time * option error.


(** *** The header loop *)

Lemma scanHeader_acc (header acc : list gostring) (b : bool) :
  fold_left
    (fun st text =>
       let '(fieldNames, hasBalance) := st in
       (fieldNames ++ [text],
        if strings.Contains text (str "Balance") then true else hasBalance))
    header (acc, b)
  = (acc ++ header,
     b || existsb (fun text => strings.Contains text (str "Balance")) header).
Proof.
  revert acc b. induction header as [|text t IH]; intros acc b; cbn [fold_left existsb].
  - now rewrite app_nil_r, orb_false_r.
  - rewrite IH, <- app_assoc. cbn [app]. f_equal.
    destruct (strings.Contains text (str "Balance")); cbn [orb].
    + now rewrite orb_true_r.
    + reflexivity.
Qed.

Lemma scanHeader_eq (header : list gostring) :
  scanHeader header
  = (header, existsb (fun text => strings.Contains text (str "Balance")) header).
Proof. unfold scanHeader. now rewrite scanHeader_acc. Qed.

Lemma noBalanceColumn_existsb (header : list gostring) :
  noBalanceColumn header ->
  existsb (fun text => strings.Contains text (str "Balance")) header = false.
Proof.
  induction 1 as [|text t Ht _ IH]; [reflexivity|].
  cbn [existsb]. now rewrite Ht, IH.
Qed.

(** *** The loop over the data rows *)

(** The record of a row before the index pass: the filled record, with
    the running balance when there is no balance column. *)
Lemma rowStep_fst m fieldNames hasBalance history balance cells :
  exists record balance',
    rowStep ParseLocal m fieldNames hasBalance (history, balance) cells
    = (record :: history, balance') /\
    set_Balance record 0 = set_Balance (fillRecord ParseLocal m fieldNames cells) 0 /\
    (hasBalance = true -> record = fillRecord ParseLocal m fieldNames cells) /\
    (hasBalance = false ->
     Balance record = balance /\
     balance' = wrap64 (Balance record + Credit record - Debit record)).
Proof.
  unfold rowStep. destruct hasBalance; cbn [negb].
  - eexists _, _. repeat split; try reflexivity; discriminate.
  - eexists _, _. split; [reflexivity|]. repeat split; try discriminate.
    cbn [Balance Credit Debit set_Balance].
    rewrite wrap64_add_idemp_r. f_equal. lia.
Qed.

Lemma rows_length m fieldNames hasBalance (dataRows : list (list gostring)) history balance :
  length (fst (fold_left (rowStep ParseLocal m fieldNames hasBalance) dataRows (history, balance)))
  = (length dataRows + length history)%nat.
Proof.
  revert history balance. induction dataRows as [|cells t IH]; intros history balance;
    cbn [fold_left]; [reflexivity|].
  destruct (rowStep_fst m fieldNames hasBalance history balance cells)
    as (record & balance' & -> & _).
  rewrite IH. cbn [length]. lia.
Qed.

(** Every field but the balance comes from the row, in reverse order of
    the rows. *)
Lemma rows_fields m fieldNames hasBalance (dataRows : list (list gostring)) history balance :
  map (fun r => set_Balance r 0)
      (fst (fold_left (rowStep ParseLocal m fieldNames hasBalance) dataRows (history, balance)))
  = rev (map (fun cells => set_Balance (fillRecord ParseLocal m fieldNames cells) 0) dataRows)
    ++ map (fun r => set_Balance r 0) history.
Proof.
  revert history balance. induction dataRows as [|cells t IH]; intros history balance;
    cbn [fold_left map rev]; [reflexivity|].
  destruct (rowStep_fst m fieldNames hasBalance history balance cells)
    as (record & balance' & -> & Hr & _).
  rewrite IH. cbn [map]. rewrite Hr, <- app_assoc. reflexivity.
Qed.

Lemma rows_balanceInv m fieldNames seed (dataRows : list (list gostring)) st :
  balanceInv seed st ->
  balanceInv seed (fold_left (rowStep ParseLocal m fieldNames false) dataRows st).
Proof.
  revert st. induction dataRows as [|cells t IH]; intros [history balance] Hinv;
    cbn [fold_left]; [exact Hinv|].
  apply IH.
  destruct (rowStep_fst m fieldNames false history balance cells)
    as (record & balance' & -> & _ & _ & Hb).
  destruct (Hb eq_refl) as [Hbal ->]. clear Hb.
  destruct Hinv as [Hrun Hhead]. cbn [balanceInv]. split; [|split].
  - destruct history as [|r rest]; [exact I|].
    cbn [runsBackward]. split; [|exact Hrun].
    destruct Hhead as [Hhead _]. congruence.
  - reflexivity.
  - destruct history as [|r rest].
    + exists [], record. split; [reflexivity | congruence].
    + destruct Hhead as [_ (init & r0 & Hi & Hs)].
      exists (record :: init), r0. split; [|exact Hs]. now rewrite Hi.
Qed.

(** *** The index pass *)

Lemma setIndex_fields index date history :
  map (fun r => set_Index r 0) (setIndex index date history)
  = map (fun r => set_Index r 0) history.
Proof.
  revert index date. induction history as [|r rest IH]; intros index date;
    cbn [setIndex map]; [reflexivity|].
  destruct (gotime.Equal (Date r) date); cbn [map]; now rewrite IH.
Qed.

Lemma indexedFrom_cursor index date date' out :
  gotime.Equal date date' = true ->
  indexedFrom index date out -> indexedFrom index date' out.
Proof.
  intros He. destruct out as [|r rest]; [trivial|].
  cbn [indexedFrom]. now rewrite (Equal_trans_l date date' (Date r) He).
Qed.

Lemma setIndex_indexedFrom index date history :
  indexedFrom index date (setIndex index date history).
Proof.
  revert index date. induction history as [|r rest IH]; intros index date;
    cbn [setIndex]; [exact I|].
  destruct (gotime.Equal (Date r) date) eqn:E; cbn [indexedFrom Index Date set_Index];
    rewrite ?E, ?Equal_refl.
  - split; [reflexivity|].
    apply (indexedFrom_cursor _ date); [now rewrite Equal_sym | apply IH].
  - split; [reflexivity | apply IH].
Qed.

Lemma indexedFrom_head a rest :
  indexedFrom 0 gotime.zero (a :: rest) -> Index a = 1.
Proof.
  cbn [indexedFrom]. intros [H _]. destruct (gotime.Equal (Date a) gotime.zero); lia.
Qed.

Lemma indexedFrom_app index date pre p l :
  indexedFrom index date ((pre ++ [p]) ++ l) -> indexedFrom (Index p) (Date p) l.
Proof.
  revert index date. induction pre as [|r pre IH]; intros index date; cbn [app indexedFrom].
  - tauto.
  - intros [_ H]. exact (IH _ _ H).
Qed.

Lemma indexedFrom_adjacent index date out i a b :
  indexedFrom index date out ->
  nth_error out i = Some a -> nth_error out (S i) = Some b ->
  Index b = if gotime.Equal (Date b) (Date a) then Index a + 1 else 1.
Proof.
  revert index date out. induction i as [|i IH]; intros index date out Hout Ha Hb.
  - destruct out as [|x [|y rest]]; try discriminate.
    cbn in Ha, Hb. injection Ha as ->. injection Hb as ->.
    cbn [indexedFrom] in Hout. tauto.
  - destruct out as [|x rest]; [discriminate|].
    cbn [indexedFrom] in Hout. destruct Hout as [_ Hout].
    exact (IH _ _ rest Hout Ha Hb).
Qed.

(** Records that all have the cursor date count on from the counter. *)
Lemma indexedFrom_run index date run :
  indexedFrom index date run ->
  (forall a, In a run -> gotime.Equal (Date a) date = true) ->
  map Index run = map (fun n => index + Z.of_nat n) (seq 1 (length run)).
Proof.
  revert index date. induction run as [|r rest IH]; intros index date Hrun Hall;
    [reflexivity|].
  cbn [indexedFrom] in Hrun. destruct Hrun as [Hr Hrest].
  rewrite (Hall r (or_introl eq_refl)) in Hr.
  cbn [length seq map]. f_equal; [lia|].
  rewrite (IH (Index r) (Date r) Hrest).
  - rewrite <- (seq_shift _ 1), map_map. apply map_ext. intros n. lia.
  - intros a Ha. rewrite (Equal_trans_l (Date r) date (Date a)).
    + apply Hall. now right.
    + apply Hall. now left.
Qed.

Lemma indexedFrom_app_l index date l post :
  indexedFrom index date (l ++ post) -> indexedFrom index date l.
Proof.
  revert index date. induction l as [|x l IH]; intros index date; cbn [app indexedFrom];
    [trivial|].
  intros [Hx Hl]. split; [exact Hx | exact (IH _ _ Hl)].
Qed.

Lemma indexedFrom_maximalRun pre run post :
  indexedFrom 0 gotime.zero (pre ++ run ++ post) ->
  maximalRun pre run post ->
  map Index run = map Z.of_nat (seq 1 (length run)).
Proof.
  intros Hout (Hne & Heq & Hpre & _).
  destruct run as [|r rest]; [congruence|].
  assert (H1 : Index r = 1 /\ indexedFrom (Index r) (Date r) rest).
  { destruct pre as [|x pre0].
    - change ([] ++ (r :: rest) ++ post) with ((r :: rest) ++ post) in Hout.
      apply indexedFrom_app_l in Hout.
      split; [exact (indexedFrom_head _ _ Hout)|].
      cbn [indexedFrom] in Hout. tauto.
    - destruct (@exists_last _ (x :: pre0) ltac:(discriminate)) as (pre' & p & Hp).
      rewrite Hp in Hout, Hpre.
      apply indexedFrom_app, indexedFrom_app_l in Hout.
      cbn [indexedFrom] in Hout. destruct Hout as [Hr Hrest].
      rewrite (Hpre pre' p r eq_refl (or_introl eq_refl)) in Hr. tauto. }
  destruct H1 as [Hr Hrest].
  cbn [length seq map]. f_equal; [exact Hr|].
  rewrite (indexedFrom_run _ _ _ Hrest).
  - rewrite Hr, <- (seq_shift _ 1), map_map. apply map_ext. intros n. lia.
  - intros a Ha. apply Heq; [now right | now left].
Qed.

(** *** The field handlers *)

Lemma In_TrimLeftFunc r s f : In r (strings.TrimLeftFunc s f) -> In r s.
Proof.
  induction s as [|c t IH]; cbn [strings.TrimLeftFunc]; [tauto|].
  destruct (f c); [|tauto]. intros H. right. now apply IH.
Qed.

Lemma In_TrimSpace r s : In r (strings.TrimSpace s) -> In r s.
Proof.
  unfold strings.TrimSpace, strings.TrimFunc, strings.TrimRightFunc.
  intros H. apply in_rev, In_TrimLeftFunc, in_rev, In_TrimLeftFunc in H. exact H.
Qed.

Lemma lookupHandler_cases field method :
  lookupHandler ParseLocal field = Some method ->
  (field = str "Date" /\ method = DateFromString ParseLocal) \/
  (field = str "Type" /\ method = TypeFromString) \/
  (field = str "Description" /\ method = DescriptionFromString) \/
  (field = str "Debit" /\ method = DebitFromString) \/
  (field = str "Credit" /\ method = CreditFromString) \/
  (field = str "Account Balance" /\ method = BalanceFromString).
Proof.
  unfold lookupHandler, DefaultHandlers. cbn [find fst].
  repeat match goal with
         | |- context [gostring_eqb ?k field] =>
             let E := fresh "E" in
             destruct (gostring_eqb k field) eqn:E;
             [apply gostring_eqb_eq in E; cbn [option_map snd];
              intros [= <-]; subst field; tauto|]
         end.
  discriminate.
Qed.

(** A handler other than [DebitFromString] leaves [Debit] alone, and
    [DebitFromString] stores what [parseMoney] reads in a cell that is not
    blank; likewise for [Credit]. *)
Lemma handler_Debit field method record value :
  lookupHandler ParseLocal field = Some method ->
  Debit (fst (method record value)) = Debit record \/
  field = str "Debit" /\ blank value = false /\
  parseMoney (strings.TrimSpace value) = (Debit (fst (method record value)), None).
Proof.
  intros H. unfold blank.
  destruct (lookupHandler_cases _ _ H) as [[-> ->]|[[-> ->]|[[-> ->]|[[-> ->]|[[-> ->]|[-> ->]]]]]];
    try (left; reflexivity).
  - left. unfold DateFromString. now destruct (ParseLocal _) as [d [e|]].
  - unfold DebitFromString.
    destruct (strings.TrimSpace value) as [|c t] eqn:Et; [now left|].
    destruct (parseMoney (c :: t)) as [v [e|]] eqn:Ep; [now left|].
    right. cbn [fst Debit set_Debit]. auto.
  - left. unfold CreditFromString.
    destruct (strings.TrimSpace value) as [|c t]; [reflexivity|].
    now destruct (parseMoney (c :: t)) as [v [e|]].
  - left. unfold BalanceFromString.
    destruct (strings.TrimSpace value) as [|c t]; [reflexivity|].
    now destruct (parseMoney (c :: t)) as [v [e|]].
Qed.

Lemma handler_Credit field method record value :
  lookupHandler ParseLocal field = Some method ->
  Credit (fst (method record value)) = Credit record \/
  field = str "Credit" /\ blank value = false /\
  parseMoney (strings.TrimSpace value) = (Credit (fst (method record value)), None).
Proof.
  intros H. unfold blank.
  destruct (lookupHandler_cases _ _ H) as [[-> ->]|[[-> ->]|[[-> ->]|[[-> ->]|[[-> ->]|[-> ->]]]]]];
    try (left; reflexivity).
  - left. unfold DateFromString. now destruct (ParseLocal _) as [d [e|]].
  - left. unfold DebitFromString.
    destruct (strings.TrimSpace value) as [|c t]; [reflexivity|].
    now destruct (parseMoney (c :: t)) as [v [e|]].
  - unfold CreditFromString.
    destruct (strings.TrimSpace value) as [|c t] eqn:Et; [now left|].
    destruct (parseMoney (c :: t)) as [v [e|]] eqn:Ep; [now left|].
    right. cbn [fst Credit set_Credit]. auto.
  - left. unfold BalanceFromString.
    destruct (strings.TrimSpace value) as [|c t]; [reflexivity|].
    now destruct (parseMoney (c :: t)) as [v [e|]].
Qed.

(** *** One record from one row *)

Lemma fillRecord_inv (P : HistoryRecord -> Prop) m fieldNames cells :
  P emptyRecord ->
  (forall j record method,
      (j < m)%nat -> P record ->
      lookupHandler ParseLocal (nth j fieldNames []) = Some method ->
      P (fst (method record (nth j cells [])))) ->
  P (fillRecord ParseLocal m fieldNames cells).
Proof.
  intros H0 Hstep. unfold fillRecord.
  assert (Hin : forall j, In j (seq 0 m) -> (j < m)%nat).
  { intros j Hj. apply in_seq in Hj. lia. }
  revert Hin H0. generalize emptyRecord, (seq 0 m).
  intros record l. revert record. induction l as [|j l IH]; intros record Hin H0;
    cbn [fold_left]; [exact H0|].
  apply IH; [intros k Hk; apply Hin; now right|].
  match goal with
  | |- P (match ?x with _ => _ end) => destruct x as [method|] eqn:E
  end; [|exact H0].
  apply Hstep; [apply Hin; now left | exact H0 | exact E].
Qed.

Lemma In_cellsUnder name header cells j :
  (j < length header)%nat -> nth j header [] = name ->
  In (nth j cells []) (cellsUnder name header cells).
Proof.
  intros Hj Hn. unfold cellsUnder.
  apply (in_map (fun j => nth j cells [])), filter_In. split.
  - apply in_seq. unfold gostring in *. lia.
  - now apply gostring_eqb_eq.
Qed.

Lemma cellsUnder_absent name header cells :
  ~ In name header -> cellsUnder name header cells = [].
Proof.
  intros Hn. unfold cellsUnder.
  assert (H : forall l, (forall j, In j l -> (j < length header)%nat) ->
              filter (fun j => gostring_eqb (nth j header []) name) l = []).
  { induction l as [|j l IH]; intros Hl; [reflexivity|]. cbn [filter].
    destruct (gostring_eqb (nth j header []) name) eqn:E.
    - apply gostring_eqb_eq in E. exfalso. apply Hn. rewrite <- E.
      apply nth_In. apply Hl. now left.
    - apply IH. intros k Hk. apply Hl. now right. }
  rewrite H; [reflexivity|]. intros j Hj. apply in_seq in Hj. lia.
Qed.

(** What the cells under "Debit" say, the [Debit] field says. *)
Lemma fillRecord_Debit (Q : Z -> Prop) (C : gostring -> Prop) header cells :
  Q 0 ->
  (forall value v, C value -> blank value = false ->
                   parseMoney (strings.TrimSpace value) = (v, None) -> Q v) ->
  (forall cell, In cell (cellsUnder (str "Debit") header cells) -> C cell) ->
  Q (Debit (fillRecord ParseLocal (length header) header cells)).
Proof.
  intros H0 Hparse Hcells.
  apply (fillRecord_inv (fun r => Q (Debit r))); [exact H0|].
  intros j record method Hj Hrec Hm.
  destruct (handler_Debit _ _ record (nth j cells []) Hm) as [He | (Hf & Hb & Hp)];
    [exact (eq_ind_r Q Hrec He)|].
  apply (Hparse _ _ (Hcells _ (In_cellsUnder _ header cells j Hj Hf)) Hb Hp).
Qed.

Lemma fillRecord_Credit (Q : Z -> Prop) (C : gostring -> Prop) header cells :
  Q 0 ->
  (forall value v, C value -> blank value = false ->
                   parseMoney (strings.TrimSpace value) = (v, None) -> Q v) ->
  (forall cell, In cell (cellsUnder (str "Credit") header cells) -> C cell) ->
  Q (Credit (fillRecord ParseLocal (length header) header cells)).
Proof.
  intros H0 Hparse Hcells.
  apply (fillRecord_inv (fun r => Q (Credit r))); [exact H0|].
  intros j record method Hj Hrec Hm.
  destruct (handler_Credit _ _ record (nth j cells []) Hm) as [He | (Hf & Hb & Hp)];
    [exact (eq_ind_r Q Hrec He)|].
  apply (Hparse _ _ (Hcells _ (In_cellsUnder _ header cells j Hj Hf)) Hb Hp).
Qed.

(** *** The whole of [ParseAccountHistory] *)

Lemma ParseAccountHistory_eq page header dataRows :
  historyRows page = header :: dataRows ->
  ParseAccountHistory ParseLocal page =
    match (if negb (hasBalanceColumn header)
           then ParseAccountBalance page else (0, None)) with
    | (_, Some err) => ([], Some err)
    | (balance, None) =>
        (setIndex 0 gotime.zero
           (fst (fold_left
                   (rowStep ParseLocal (length header) header (hasBalanceColumn header))
                   dataRows ([], balance))),
         None)
    end.
Proof.
  intros Hrows. unfold ParseAccountHistory. rewrite Hrows, scanHeader_eq.
  fold (hasBalanceColumn header).
  destruct (if negb (hasBalanceColumn header) then ParseAccountBalance page else (0, None))
    as [balance [err|]]; [reflexivity|].
  now destruct (fold_left _ dataRows ([], balance)).
Qed.

Lemma ParseAccountHistory_ok page out header dataRows :
  historyRows page = header :: dataRows ->
  ParseAccountHistory ParseLocal page = (out, None) ->
  exists balance,
    out = setIndex 0 gotime.zero
            (fst (fold_left
                    (rowStep ParseLocal (length header) header (hasBalanceColumn header))
                    dataRows ([], balance))) /\
    (hasBalanceColumn header = false -> ParseAccountBalance page = (balance, None)).
Proof.
  intros Hrows. rewrite (ParseAccountHistory_eq _ _ _ Hrows).
  destruct (hasBalanceColumn header); cbn [negb].
  - intros [= <-]. exists 0. split; [reflexivity | discriminate].
  - destruct (ParseAccountBalance page) as [balance [err|]]; [discriminate|].
    intros [= <-]. exists balance. split; reflexivity.
Qed.

Lemma ParseAccountHistory_indexed page :
  indexedFrom 0 gotime.zero (fst (ParseAccountHistory ParseLocal page)).
Proof.
  destruct (historyRows page) as [|header dataRows] eqn:Hrows.
  - unfold ParseAccountHistory. rewrite Hrows. exact I.
  - rewrite (ParseAccountHistory_eq _ _ _ Hrows).
    destruct (if negb (hasBalanceColumn header) then ParseAccountBalance page else (0, None))
      as [balance [err|]]; [exact I|].
    apply setIndex_indexedFrom.
Qed.

Lemma map_eq_Forall2 {A B C : Type} (f : A -> C) (g : B -> C) l l' :
  map f l = map g l' -> Forall2 (fun a b => f a = g b) l l'.
Proof.
  revert l'. induction l as [|a l IH]; intros [|b l']; cbn [map]; try discriminate.
  - constructor.
  - intros [= Hab Hl]. constructor; [exact Hab | exact (IH _ Hl)].
Qed.

(** Every record of a successful result comes from one data row, the
    records being in the reverse order of the rows. *)
Lemma ParseAccountHistory_fromRow page out header dataRows :
  historyRows page = header :: dataRows ->
  ParseAccountHistory ParseLocal page = (out, None) ->
  Forall2 (fun r cells => fromRow r (fillRecord ParseLocal (length header) header cells))
          out (rev dataRows).
Proof.
  intros Hrows Hok.
  destruct (ParseAccountHistory_ok _ _ _ _ Hrows Hok) as (balance & -> & _).
  set (hist := fst (fold_left _ dataRows ([], balance))).
  assert (H : map (fun r => set_Balance (set_Index r 0) 0) (setIndex 0 gotime.zero hist)
              = map (fun cells =>
                       set_Balance
                         (set_Index (fillRecord ParseLocal (length header) header cells) 0) 0)
                    (rev dataRows)).
  { transitivity (map (fun r => set_Balance r 0)
                      (map (fun r => set_Index r 0) (setIndex 0 gotime.zero hist)));
      [now rewrite map_map|].
    rewrite setIndex_fields, map_map.
    transitivity (map (fun r => set_Index r 0) (map (fun r => set_Balance r 0) hist));
      [now rewrite map_map|].
    unfold hist. rewrite rows_fields. cbn [map]. rewrite app_nil_r, <- map_rev, map_map.
    reflexivity. }
  apply map_eq_Forall2 in H.
  eapply Forall2_impl; [|exact H].
  intros r cells Heq. cbv beta in Heq.
  unfold fromRow.
  pose proof (f_equal Date Heq) as H1. pose proof (f_equal Type_ Heq) as H2.
  pose proof (f_equal Description Heq) as H3. pose proof (f_equal Debit Heq) as H4.
  pose proof (f_equal Credit Heq) as H5.
  cbn [Date Type_ Description Debit Credit set_Balance set_Index] in *.
  tauto.
Qed.

Lemma nth_error_fields (l l' : list HistoryRecord) i a :
  map (fun r => set_Index r 0) l = map (fun r => set_Index r 0) l' ->
  nth_error l i = Some a ->
  exists a', nth_error l' i = Some a' /\ set_Index a 0 = set_Index a' 0.
Proof.
  intros Hmap Ha.
  pose proof (f_equal (fun m => nth_error m i) Hmap) as Hi. cbv beta in Hi.
  rewrite !nth_error_map, Ha in Hi.
  destruct (nth_error l' i) as [a'|]; cbn [option_map] in Hi; [|discriminate].
  exists a'. split; [reflexivity|].
  revert Hi. generalize (set_Index a 0), (set_Index a' 0). now intros x y [= ->].
Qed.

Lemma runsBackward_adjacent l i a b :
  runsBackward l ->
  nth_error l i = Some a -> nth_error l (S i) = Some b ->
  Balance a = wrap64 (Balance b + Credit b - Debit b).
Proof.
  revert l. induction i as [|i IH]; intros l Hrun Ha Hb.
  - destruct l as [|x [|y rest]]; try discriminate.
    cbn in Ha, Hb. injection Ha as ->. injection Hb as ->.
    cbn [runsBackward] in Hrun. tauto.
  - destruct l as [|x rest]; [discriminate|].
    apply (IH rest); [|exact Ha | exact Hb].
    destruct rest; [exact I|]. cbn [runsBackward] in Hrun. tauto.
Qed.

(** Without balance column and with a seed, the parse succeeds, the
    history before the index pass runs backward and ends with the seed. *)
Lemma ParseAccountHistory_seeded page header dataRows seed :
  historyRows page = header :: dataRows ->
  noBalanceColumn header ->
  ParseAccountBalance page = (seed, None) ->
  exists hist,
    ParseAccountHistory ParseLocal page = (setIndex 0 gotime.zero hist, None) /\
    length hist = length dataRows /\
    runsBackward hist /\
    (hist = [] \/ exists init r, hist = init ++ [r] /\ Balance r = seed).
Proof.
  intros Hrows Hno Hseed.
  rewrite (ParseAccountHistory_eq _ _ _ Hrows).
  unfold hasBalanceColumn. rewrite (noBalanceColumn_existsb _ Hno). cbn [negb].
  rewrite Hseed.
  pose proof (rows_balanceInv (length header) header seed dataRows ([], seed)) as Hinv.
  pose proof (rows_length (length header) header false dataRows [] seed) as Hlen.
  destruct (fold_left _ dataRows ([], seed)) as [hist balance].
  cbn [fst] in *. exists hist. split; [reflexivity|].
  split; [cbn [length] in Hlen; lia|].
  destruct Hinv as [Hrun Hhead]; [cbn; auto|].
  split; [exact Hrun|].
  destruct hist as [|r rest]; [now left|]. right. tauto.
Qed.

(** C7. When [ParseAccountHistory] succeeds, it returns as many records as
    the table has rows after the header row, whatever the cells and the
    header texts are. *)
Theorem history_length_is_row_count page out :
  ParseAccountHistory ParseLocal page = (out, None) ->
  length out = (length (historyRows page) - 1)%nat.
Proof.
  intros Hok. destruct (historyRows page) as [|header dataRows] eqn:Hrows.
  - unfold ParseAccountHistory in Hok. rewrite Hrows in Hok. discriminate.
  - pose proof (ParseAccountHistory_fromRow _ _ _ _ Hrows Hok) as H.
    apply Forall2_length in H. rewrite H, length_rev. cbn [length]. lia.
Qed.

(** C4. On a table with a header row of which no cell contains "Balance",
    a failure of [ParseAccountBalance] is the result of
    [ParseAccountHistory], with no record; in particular when no element
    of the page matches the balance selector. *)
Theorem missing_seed_fails page header dataRows :
  historyRows page = header :: dataRows ->
  noBalanceColumn header ->
  (forall balance err,
      ParseAccountBalance page = (balance, Some err) ->
      ParseAccountHistory ParseLocal page = ([], Some err)) /\
  (balanceSpans page = [] ->
   ParseAccountHistory ParseLocal page
   = ([], Some (errorString "Unable to find account balance in page"))).
Proof.
  intros Hrows Hno.
  assert (H : forall balance err,
             ParseAccountBalance page = (balance, Some err) ->
             ParseAccountHistory ParseLocal page = ([], Some err)).
  { intros balance err Hbal. rewrite (ParseAccountHistory_eq _ _ _ Hrows).
    unfold hasBalanceColumn. rewrite (noBalanceColumn_existsb _ Hno). cbn [negb].
    now rewrite Hbal. }
  split; [exact H|].
  intros Hspans. apply (H 0). unfold ParseAccountBalance. now rewrite Hspans.
Qed.

(** C3, as the code has it.  A table without any row, not even a header
    row, makes [ParseAccountHistory] fail with "No account history found
    in page" and no record.  A table with only a header row gives no
    record either, but it is an error only when the seed balance is needed
    and cannot be read: with a balance column the result is the empty
    history without error. *)
Theorem empty_table_fails page :
  (historyRows page = [] ->
   ParseAccountHistory ParseLocal page
   = ([], Some (errorString "No account history found in page"))) /\
  (forall header,
      historyRows page = [header] ->
      ParseAccountHistory ParseLocal page
      = ([], if hasBalanceColumn header then None else snd (ParseAccountBalance page))).
Proof.
  split.
  - intros Hrows. unfold ParseAccountHistory. now rewrite Hrows.
  - intros header Hrows. rewrite (ParseAccountHistory_eq _ _ _ Hrows).
    destruct (hasBalanceColumn header); cbn [negb]; [reflexivity|].
    now destruct (ParseAccountBalance page) as [balance [err|]].
Qed.

(** C8. Without balance column, on a table with at least one data row and
    a page of which the balance is read, [ParseAccountHistory] succeeds
    and the last record of its result has the seed as its [Balance]. *)
Theorem seed_is_last_balance page header dataRows seed :
  historyRows page = header :: dataRows ->
  dataRows <> [] ->
  noBalanceColumn header ->
  ParseAccountBalance page = (seed, None) ->
  exists init r,
    ParseAccountHistory ParseLocal page = (init ++ [r], None) /\ Balance r = seed.
Proof.
  intros Hrows Hne Hno Hseed.
  destruct (ParseAccountHistory_seeded _ _ _ _ Hrows Hno Hseed)
    as (hist & -> & Hlen & _ & [-> | (init & r & -> & Hr)]).
  - destruct dataRows; [congruence | discriminate].
  - pose proof (setIndex_fields 0 gotime.zero (init ++ [r])) as Hf.
    destruct (@exists_last _ (setIndex 0 gotime.zero (init ++ [r]))) as (init' & r' & Ho).
    { intros Hnil. rewrite Hnil in Hf. rewrite map_app in Hf.
      destruct (map (fun r0 => set_Index r0 0) init); discriminate. }
    rewrite Ho in *. exists init', r'. split; [reflexivity|].
    rewrite !map_app in Hf. apply app_inj_tail in Hf as [_ Hf].
    apply (f_equal Balance) in Hf. cbn [Balance set_Index] in Hf. congruence.
Qed.

(** C1, as the code has it.  Without balance column, the balances of the
    result run backward from the seed: for two consecutive records, the
    balance of the earlier one is the balance of the later one plus the
    credit and minus the debit of the later one, in 64-bit arithmetic; and
    the seed is the balance of the last record. *)
Theorem running_balance_backward page header dataRows seed :
  historyRows page = header :: dataRows ->
  noBalanceColumn header ->
  ParseAccountBalance page = (seed, None) ->
  exists out,
    ParseAccountHistory ParseLocal page = (out, None) /\
    (forall i a b,
        nth_error out i = Some a -> nth_error out (S i) = Some b ->
        Balance a = wrap64 (Balance b + Credit b - Debit b)) /\
    (forall r, nth_error out (length out - 1) = Some r -> Balance r = seed).
Proof.
  intros Hrows Hno Hseed.
  destruct (ParseAccountHistory_seeded _ _ _ _ Hrows Hno Hseed)
    as (hist & -> & _ & Hrun & Hlast).
  exists (setIndex 0 gotime.zero hist). split; [reflexivity|].
  pose proof (setIndex_fields 0 gotime.zero hist) as Hf.
  split.
  - intros i a b Ha Hb.
    destruct (nth_error_fields _ _ _ _ Hf Ha) as (a' & Ha' & Ea).
    destruct (nth_error_fields _ _ _ _ Hf Hb) as (b' & Hb' & Eb).
    pose proof (runsBackward_adjacent _ _ _ _ Hrun Ha' Hb') as H.
    pose proof (f_equal Balance Ea) as H1. pose proof (f_equal Balance Eb) as H2.
    pose proof (f_equal Credit Eb) as H3. pose proof (f_equal Debit Eb) as H4.
    cbn [Balance Credit Debit set_Index] in *. congruence.
  - intros r Hr.
    destruct (nth_error_fields _ _ _ _ Hf Hr) as (r' & Hr' & Er).
    apply (f_equal Balance) in Er. cbn [Balance set_Index] in Er. rewrite Er.
    assert (Hl : length (setIndex 0 gotime.zero hist) = length hist).
    { rewrite <- (length_map (fun r => set_Index r 0)), Hf. apply length_map. }
    rewrite Hl in Hr'.
    destruct Hlast as [-> | (init & r0 & -> & Hs)]; [discriminate|].
    rewrite length_app in Hr'. cbn [length] in Hr'.
    rewrite nth_error_app2 in Hr' by lia.
    replace (length init + 1 - 1 - length init)%nat with 0%nat in Hr' by lia.
    cbn in Hr'. congruence.
Qed.

(** *** Order *)

Lemma Sorted_snoc {A : Type} (R : A -> A -> Prop) l a :
  Sorted R l -> (forall l' x, l = l' ++ [x] -> R x a) -> Sorted R (l ++ [a]).
Proof.
  induction l as [|x l IH]; intros Hs Hlast; cbn [app].
  - repeat constructor.
  - apply Sorted_inv in Hs as [Hs Hhd]. constructor.
    + apply IH; [exact Hs|]. intros l' y ->. apply (Hlast (x :: l') y). reflexivity.
    + destruct l as [|y l]; cbn [app].
      * constructor. apply (Hlast [] x). reflexivity.
      * constructor. now apply HdRel_inv in Hhd.
Qed.

Lemma Sorted_rev {A : Type} (R : A -> A -> Prop) l :
  Sorted (fun a b => R b a) l -> Sorted R (rev l).
Proof.
  induction l as [|x l IH]; intros Hs; cbn [rev]; [constructor|].
  apply Sorted_inv in Hs as [Hs Hhd].
  apply Sorted_snoc; [exact (IH Hs)|].
  intros l' y Hy. apply (f_equal (@rev A)) in Hy.
  rewrite rev_involutive, rev_app_distr in Hy. cbn [rev app] in Hy. subst l.
  now apply HdRel_inv in Hhd.
Qed.

Lemma Sorted_Forall2 {A B : Type} (R : A -> A -> Prop) (R' : B -> B -> Prop)
    (P : A -> B -> Prop) l l' :
  (forall a b a' b', P a a' -> P b b' -> R' a' b' -> R a b) ->
  Forall2 P l l' -> Sorted R' l' -> Sorted R l.
Proof.
  intros Himp H. induction H as [|a a' l l' Ha Hl IH]; intros Hs; [constructor|].
  apply Sorted_inv in Hs as [Hs Hhd]. constructor; [exact (IH Hs)|].
  destruct Hl as [|b b' l l' Hb Hl]; constructor.
  apply HdRel_inv in Hhd. exact (Himp _ _ _ _ Ha Hb Hhd).
Qed.

Lemma handler_Date field method record value :
  lookupHandler ParseLocal field = Some method ->
  Date (fst (method record value)) = Date record \/
  field = str "Date" /\
  ParseLocal (strings.TrimSpace value) = (Date (fst (method record value)), None).
Proof.
  intros H.
  destruct (lookupHandler_cases _ _ H) as [[-> ->]|[[-> ->]|[[-> ->]|[[-> ->]|[[-> ->]|[-> ->]]]]]];
    try (left; reflexivity).
  - unfold DateFromString.
    destruct (ParseLocal (strings.TrimSpace value)) as [d [e|]]; [now left|].
    right. cbn [fst Date set_Date]. auto.
  - left. unfold DebitFromString.
    destruct (strings.TrimSpace value) as [|c t]; [reflexivity|].
    now destruct (parseMoney (c :: t)) as [v [e|]].
  - left. unfold CreditFromString.
    destruct (strings.TrimSpace value) as [|c t]; [reflexivity|].
    now destruct (parseMoney (c :: t)) as [v [e|]].
  - left. unfold BalanceFromString.
    destruct (strings.TrimSpace value) as [|c t]; [reflexivity|].
    now destruct (parseMoney (c :: t)) as [v [e|]].
Qed.

(** A row of which no cell under "Date" parses keeps the zero date. *)
Lemma fillRecord_Date_failed header cells :
  (forall cell, In cell (cellsUnder (str "Date") header cells) ->
                snd (ParseLocal (strings.TrimSpace cell)) <> None) ->
  Date (fillRecord ParseLocal (length header) header cells) = gotime.zero.
Proof.
  intros Hfail.
  apply (fillRecord_inv (fun r => Date r = gotime.zero)); [reflexivity|].
  intros j record method Hj Hrec Hm.
  destruct (handler_Date _ _ record (nth j cells []) Hm) as [He | (Hf & Hp)];
    [exact (eq_trans He Hrec)|].
  exfalso. apply (Hfail _ (In_cellsUnder _ header cells j Hj Hf)).
  exact (f_equal snd Hp).
Qed.

(** C5, as the code has it.  [ParseAccountHistory] does not sort: the
    dates of its result are the dates read from the data rows, in the
    reverse order of the rows.  The result is therefore non-decreasing by
    date when the rows come newest first, each row's date being not before
    the date of the row under it. *)
Theorem dates_reverse_source_order page out header dataRows :
  historyRows page = header :: dataRows ->
  ParseAccountHistory ParseLocal page = (out, None) ->
  map Date out
  = rev (map (fun cells => Date (fillRecord ParseLocal (length header) header cells)) dataRows)
  /\
  (Sorted (fun cells cells' =>
             dateLe (fillRecord ParseLocal (length header) header cells')
                    (fillRecord ParseLocal (length header) header cells))
          dataRows ->
   Sorted dateLe out).
Proof.
  intros Hrows Hok.
  pose proof (ParseAccountHistory_fromRow _ _ _ _ Hrows Hok) as H.
  split.
  - rewrite <- map_rev. clear - H.
    induction H as [|r cells l l' Hr _ IH]; [reflexivity|].
    cbn [map]. rewrite IH. f_equal. apply Hr.
  - intros Hs. apply Sorted_rev in Hs.
    refine (Sorted_Forall2 _ _ _ _ _ _ H Hs).
    intros a b a' b' (Ha & _) (Hb & _). unfold dateLe. now rewrite Ha, Hb.
Qed.

(** C6. In the result of [ParseAccountHistory], the [Index] fields of a
    maximal run of records with equal dates are 1, 2, 3, ... in the order
    of the result, and a record whose date differs from the date of the
    record before it has [Index] 1. *)
Theorem index_law page :
  (forall pre run post,
      fst (ParseAccountHistory ParseLocal page) = pre ++ run ++ post ->
      maximalRun pre run post ->
      map Index run = map Z.of_nat (seq 1 (length run))) /\
  (forall i a b,
      nth_error (fst (ParseAccountHistory ParseLocal page)) i = Some a ->
      nth_error (fst (ParseAccountHistory ParseLocal page)) (S i) = Some b ->
      gotime.Equal (Date b) (Date a) = false ->
      Index b = 1).
Proof.
  pose proof (ParseAccountHistory_indexed page) as Hout. split.
  - intros pre run post Heq Hmax. rewrite Heq in Hout.
    exact (indexedFrom_maximalRun _ _ _ Hout Hmax).
  - intros i a b Ha Hb Hne.
    rewrite (indexedFrom_adjacent _ _ _ _ _ _ Hout Ha Hb), Hne. reflexivity.
Qed.

(** C10, as the code has it.  The index pass compares the stored [Date]
    values with [time.Time.Equal], that is as instants, not as calendar
    days, and a record restarts the count only against the record before
    it: the first of two records of one day at different times keeps
    counting when the record before it has its very instant.  In the
    result of [ParseAccountHistory]: a record continues the count of the
    record before it exactly when their dates are the same instant; of two
    consecutive records on the same calendar day at different times, the
    second has [Index] 1, and so has the first, unless it has the very
    instant of the record before it; the first record has [Index] 1, also
    when no cell under "Date" of its row parsed, in which case its date is
    the zero value, equal to the initial cursor. *)
Theorem index_groups_by_instant page :
  let out := fst (ParseAccountHistory ParseLocal page) in
  (forall i a b,
      nth_error out i = Some a -> nth_error out (S i) = Some b ->
      Index b = if gotime.Equal (Date b) (Date a) then Index a + 1 else 1) /\
  (forall i a b,
      nth_error out i = Some a -> nth_error out (S i) = Some b ->
      gotime.sameDay (Date a) (Date b) = true ->
      gotime.Equal (Date b) (Date a) = false ->
      Index b = 1 /\
      (i = 0%nat -> Index a = 1) /\
      (forall k p, i = S k -> nth_error out k = Some p ->
                   gotime.Equal (Date a) (Date p) = false -> Index a = 1)) /\
  (forall a rest, out = a :: rest -> Index a = 1) /\
  (forall header dataRows cells a rest,
      historyRows page = header :: dataRows ++ [cells] ->
      ParseAccountHistory ParseLocal page = (a :: rest, None) ->
      (forall cell, In cell (cellsUnder (str "Date") header cells) ->
                    snd (ParseLocal (strings.TrimSpace cell)) <> None) ->
      gotime.Equal (Date a) gotime.zero = true /\ Index a = 1).
Proof.
  intros out. pose proof (ParseAccountHistory_indexed page) as Hout. fold out in Hout.
  assert (Hadj : forall i a b,
             nth_error out i = Some a -> nth_error out (S i) = Some b ->
             Index b = if gotime.Equal (Date b) (Date a) then Index a + 1 else 1).
  { intros i a b. apply (indexedFrom_adjacent _ _ _ _ _ _ Hout). }
  assert (Hhead : forall a rest, out = a :: rest -> Index a = 1).
  { intros a rest Heq. rewrite Heq in Hout. exact (indexedFrom_head _ _ Hout). }
  split; [exact Hadj|]. split; [|split; [exact Hhead|]].
  - intros i a b Ha Hb _ Hne. split; [|split].
    + rewrite (Hadj _ _ _ Ha Hb), Hne. reflexivity.
    + intros ->. destruct out as [|x rest] eqn:Heq; [discriminate|].
      cbn in Ha. injection Ha as ->. exact (Hhead _ _ eq_refl).
    + intros k p -> Hp Hne'. rewrite (Hadj _ _ _ Hp Ha), Hne'. reflexivity.
  - intros header dataRows cells a rest Hrows Hok Hfail.
    pose proof (ParseAccountHistory_fromRow _ _ _ _ Hrows Hok) as H.
    rewrite rev_app_distr in H. cbn [rev app] in H.
    apply Forall2_cons_iff in H as [(Hd & _) _].
    rewrite Hd, (fillRecord_Date_failed _ _ Hfail). split; [reflexivity|].
    apply (Hhead a rest). unfold out. now rewrite Hok.
Qed.

(** C9, as the code has it.  [Debit] and [Credit] of every record of the
    result are 64-bit integers.  Nothing makes them non-negative in
    general: they are so when no cell under their header holds a minus
    sign.  Each is zero when all the cells under its header in the row are
    blank after trimming, in particular when the header row has no such
    cell. *)
Theorem debit_credit_of_rows page out header dataRows :
  historyRows page = header :: dataRows ->
  ParseAccountHistory ParseLocal page = (out, None) ->
  Forall2 (readsDebitCredit header) out (rev dataRows).
Proof.
  intros Hrows Hok.
  pose proof (ParseAccountHistory_fromRow _ _ _ _ Hrows Hok) as H.
  eapply Forall2_impl; [|exact H].
  intros r cells (_ & _ & _ & Hd & Hc). unfold readsDebitCredit.
  rewrite Hd, Hc. clear.
  assert (Hneg : forall value v,
             ~ In minusSign value -> blank value = false ->
             parseMoney (strings.TrimSpace value) = (v, None) -> 0 <= v).
  { intros value v Hm _ Hp. apply (parseMoney_ok_nonneg _ _ Hp).
    intros Hin. apply Hm. now apply In_TrimSpace. }
  assert (Hblank : forall value v,
             blank value = true -> blank value = false ->
             parseMoney (strings.TrimSpace value) = (v, None) -> v = 0).
  { intros value v H1 H2. congruence. }
  assert (HdZero : forallb blank (cellsUnder (str "Debit") header cells) = true ->
                   Debit (fillRecord ParseLocal (length header) header cells) = 0).
  { intros Hb. apply (fillRecord_Debit (fun v => v = 0) (fun c => blank c = true));
      [reflexivity | exact Hblank|].
    now apply forallb_forall. }
  assert (HcZero : forallb blank (cellsUnder (str "Credit") header cells) = true ->
                   Credit (fillRecord ParseLocal (length header) header cells) = 0).
  { intros Hb. apply (fillRecord_Credit (fun v => v = 0) (fun c => blank c = true));
      [reflexivity | exact Hblank|].
    now apply forallb_forall. }
  repeat split.
  - apply (fillRecord_Debit (fun v => minInt64 <= v) (fun _ => True));
      [unfold minInt64; lia | | trivial].
    intros value v _ _ Hp. apply (parseMoney_ok_range _ _ Hp).
  - apply (fillRecord_Debit (fun v => v <= maxInt64) (fun _ => True));
      [unfold maxInt64; lia | | trivial].
    intros value v _ _ Hp. apply (parseMoney_ok_range _ _ Hp).
  - apply (fillRecord_Credit (fun v => minInt64 <= v) (fun _ => True));
      [unfold minInt64; lia | | trivial].
    intros value v _ _ Hp. apply (parseMoney_ok_range _ _ Hp).
  - apply (fillRecord_Credit (fun v => v <= maxInt64) (fun _ => True));
      [unfold maxInt64; lia | | trivial].
    intros value v _ _ Hp. apply (parseMoney_ok_range _ _ Hp).
  - intros Hm. apply (fillRecord_Debit (fun v => 0 <= v) (fun c => ~ In minusSign c));
      [lia | exact Hneg | exact Hm].
  - intros Hm. apply (fillRecord_Credit (fun v => 0 <= v) (fun c => ~ In minusSign c));
      [lia | exact Hneg | exact Hm].
  - exact HdZero.
  - exact HcZero.
  - intros Ha. apply HdZero. now rewrite (cellsUnder_absent _ _ _ Ha).
  - intros Ha. apply HcZero. now rewrite (cellsUnder_absent _ _ _ Ha).
Qed.

End History.

(** ** The theorems on concrete pages *)

Lemma history_length_is_row_count_witness :
  length (fst (ParseAccountHistory parseNumericDate pageCard))
  = (length (historyRows pageCard) - 1)%nat.
Proof.
  apply (history_length_is_row_count parseNumericDate pageCard).
  vm_compute. reflexivity.
Defined.

Lemma missing_seed_fails_witness :
  ParseAccountHistory parseNumericDate pageNoSeed
  = ([], Some (errorString "Unable to find account balance in page")).
Proof.
  apply (missing_seed_fails parseNumericDate pageNoSeed
           (hd [] (historyRows pageNoSeed)) (tl (historyRows pageNoSeed))).
  - vm_compute. reflexivity.
  - apply noBalanceColumn_bool. vm_compute. reflexivity.
  - vm_compute. reflexivity.
Defined.

Lemma empty_table_fails_witness :
  ParseAccountHistory parseNumericDate pageNoRows
  = ([], Some (errorString "No account history found in page")).
Proof.
  apply (proj1 (empty_table_fails parseNumericDate pageNoRows)).
  vm_compute. reflexivity.
Defined.

(** C3, the claim as stated fails: a table with only a header row, one of
    whose cells contains "Balance", is parsed without error. *)
Lemma header_only_counterexample :
  tl (historyRows pageHeaderOnly) = [] /\
  ParseAccountHistory parseNumericDate pageHeaderOnly = ([], None).
Proof.
  split; vm_compute; reflexivity.
Qed.

Lemma seed_is_last_balance_witness :
  exists init r,
    ParseAccountHistory parseNumericDate pageCard = (init ++ [r], None) /\
    Balance r = 10000.
Proof.
  apply (seed_is_last_balance parseNumericDate pageCard
           (hd [] (historyRows pageCard)) (tl (historyRows pageCard)) 10000).
  - vm_compute. reflexivity.
  - vm_compute. discriminate.
  - apply noBalanceColumn_bool. vm_compute. reflexivity.
  - vm_compute. reflexivity.
Defined.

Lemma running_balance_backward_witness :
  exists out,
    ParseAccountHistory parseNumericDate pageCard = (out, None) /\
    (forall i a b,
        nth_error out i = Some a -> nth_error out (S i) = Some b ->
        Balance a = wrap64 (Balance b + Credit b - Debit b)) /\
    (forall r, nth_error out (length out - 1) = Some r -> Balance r = 10000).
Proof.
  apply (running_balance_backward parseNumericDate pageCard
           (hd [] (historyRows pageCard)) (tl (historyRows pageCard)) 10000).
  - vm_compute. reflexivity.
  - apply noBalanceColumn_bool. vm_compute. reflexivity.
  - vm_compute. reflexivity.
Defined.

(** C1, the claim as stated fails on the card page: the seed is 10000, the
    result has the balances 10100 and 10000, the second record has a
    credit of 100 and the first a debit of 250. *)
Lemma running_balance_forward_counterexample :
  noBalanceColumn (hd [] (historyRows pageCard)) /\
  ParseAccountBalance pageCard = (10000, None) /\
  snd (ParseAccountHistory parseNumericDate pageCard) = None /\
  map (fun r => (Balance r, Credit r, Debit r))
      (fst (ParseAccountHistory parseNumericDate pageCard))
  = [(10100, 0, 250); (10000, 100, 0)] /\
  ~ runsForward 10000 (fst (ParseAccountHistory parseNumericDate pageCard)) /\
  ~ (forall i a b,
        nth_error (fst (ParseAccountHistory parseNumericDate pageCard)) i = Some a ->
        nth_error (fst (ParseAccountHistory parseNumericDate pageCard)) (S i) = Some b ->
        Balance b = Balance a + Credit b - Debit b).
Proof.
  split; [apply noBalanceColumn_bool; vm_compute; reflexivity|].
  split; [vm_compute; reflexivity|]. split; [vm_compute; reflexivity|].
  split; [vm_compute; reflexivity|]. split.
  - vm_compute. intros [H _]. discriminate H.
  - intros H.
    pose (out := fst (ParseAccountHistory parseNumericDate pageCard)).
    assert (Ha : nth_error out 0 = Some (nth 0 out emptyRecord))
      by (vm_compute; reflexivity).
    assert (Hb : nth_error out 1 = Some (nth 1 out emptyRecord))
      by (vm_compute; reflexivity).
    specialize (H _ _ _ Ha Hb). vm_compute in H. discriminate H.
Qed.

Lemma dates_reverse_source_order_witness :
  Sorted dateLe (fst (ParseAccountHistory parseNumericDate pageCard)).
Proof.
  apply (dates_reverse_source_order parseNumericDate pageCard _
           (hd [] (historyRows pageCard)) (tl (historyRows pageCard))).
  - vm_compute. reflexivity.
  - vm_compute. reflexivity.
  - cbv [tl historyRows pageCard].
    apply Sorted_cons; [apply Sorted_cons; [apply Sorted_nil | apply HdRel_nil]|].
    apply HdRel_cons. vm_compute. reflexivity.
Defined.

(** C5, the claim as stated fails: rows that come oldest first are
    returned newest first. *)
Lemma oldest_first_counterexample :
  snd (ParseAccountHistory parseNumericDate pageOldestFirst) = None /\
  ~ Sorted dateLe (fst (ParseAccountHistory parseNumericDate pageOldestFirst)).
Proof.
  split; [vm_compute; reflexivity|]. unfold dateLe. vm_compute. intros H.
  apply Sorted_inv in H as [_ H]. apply HdRel_inv in H. discriminate H.
Qed.

Lemma index_law_witness :
  map Index (fst (ParseAccountHistory parseNumericDate pageOneDay))
  = map Z.of_nat (seq 1 (length (fst (ParseAccountHistory parseNumericDate pageOneDay)))).
Proof.
  apply (proj1 (index_law parseNumericDate pageOneDay) []
           (fst (ParseAccountHistory parseNumericDate pageOneDay)) []).
  - vm_compute. reflexivity.
  - unfold maximalRun. vm_compute.
    split; [discriminate|]. split; [|split].
    + intros a b [<-|[<-|[]]] [<-|[<-|[]]]; reflexivity.
    + intros [|x pre'] p a Hp; discriminate Hp.
    + intros q post' a Hq. discriminate Hq.
Defined.

Lemma index_groups_by_instant_witness :
  Index (nth 2 (fst (ParseAccountHistory parseNumericDate pageSameDay)) emptyRecord) = 1 /\
  Index (nth 1 (fst (ParseAccountHistory parseNumericDate pageSameDay)) emptyRecord) = 1 /\
  Index (nth 0 (fst (ParseAccountHistory parseNumericDate pageSameDay)) emptyRecord) = 1.
Proof.
  pose (out := fst (ParseAccountHistory parseNumericDate pageSameDay)).
  destruct (proj1 (proj2 (index_groups_by_instant parseNumericDate pageSameDay))
              1%nat (nth 1 out emptyRecord) (nth 2 out emptyRecord))
    as (H2 & _ & H1); try (vm_compute; reflexivity).
  split; [exact H2|]. split.
  - apply (H1 0%nat (nth 0 out emptyRecord)); vm_compute; reflexivity.
  - apply (proj1 (proj2 (proj2 (index_groups_by_instant parseNumericDate pageSameDay)))
             (nth 0 out emptyRecord) (tl out)).
    vm_compute. reflexivity.
Defined.

(** C10, the claim as stated fails: of the three rows of one day at 10:30,
    09:15 and 09:15, the result has the indices 1, 2, 1; its second and
    third records are consecutive, of the same calendar day and of
    different times, and the second has the index 2. *)
Lemma same_day_pair_counterexample :
  snd (ParseAccountHistory parseNumericDate pageRepeatedTime) = None /\
  map Index (fst (ParseAccountHistory parseNumericDate pageRepeatedTime)) = [1; 2; 1] /\
  gotime.sameDay
    (Date (nth 1 (fst (ParseAccountHistory parseNumericDate pageRepeatedTime)) emptyRecord))
    (Date (nth 2 (fst (ParseAccountHistory parseNumericDate pageRepeatedTime)) emptyRecord))
  = true /\
  gotime.Equal
    (Date (nth 2 (fst (ParseAccountHistory parseNumericDate pageRepeatedTime)) emptyRecord))
    (Date (nth 1 (fst (ParseAccountHistory parseNumericDate pageRepeatedTime)) emptyRecord))
  = false /\
  ~ (Index (nth 1 (fst (ParseAccountHistory parseNumericDate pageRepeatedTime))
              emptyRecord) = 1 /\
     Index (nth 2 (fst (ParseAccountHistory parseNumericDate pageRepeatedTime))
              emptyRecord) = 1).
Proof.
  split; [vm_compute; reflexivity|]. split; [vm_compute; reflexivity|].
  split; [vm_compute; reflexivity|]. split; [vm_compute; reflexivity|].
  vm_compute. intros [H _]. discriminate H.
Qed.

Lemma debit_credit_of_rows_witness :
  Forall2 (readsDebitCredit (hd [] (historyRows pageCard)))
          (fst (ParseAccountHistory parseNumericDate pageCard))
          (rev (tl (historyRows pageCard))).
Proof.
  apply (debit_credit_of_rows parseNumericDate pageCard); vm_compute; reflexivity.
Defined.

(** C9, the claim as stated fails: the cell "-5.00" under "Debit" gives
    the debit -500. *)
Lemma negative_debit_counterexample :
  snd (ParseAccountHistory parseNumericDate pageNegativeDebit) = None /\
  map Debit (fst (ParseAccountHistory parseNumericDate pageNegativeDebit)) = [-500] /\
  ~ Forall (fun r => 0 <= Debit r /\ 0 <= Credit r)
           (fst (ParseAccountHistory parseNumericDate pageNegativeDebit)).
Proof.
  split; [vm_compute; reflexivity|]. split; [vm_compute; reflexivity|].
  vm_compute. intros H. apply Forall_inv in H. destruct H as [H _]. apply H. reflexivity.
Qed.

(** * The rest of the code *)

(** ** [strings.TrimSpace] *)

Lemma TrimLeftFunc_split (s : gostring) (f : rune -> bool) :
  exists pre,
    s = pre ++ strings.TrimLeftFunc s f /\ forallb f pre = true /\
    match strings.TrimLeftFunc s f with
    | [] => True
    | c :: _ => f c = false
    end.
Proof.
  induction s as [|c t IH]; cbn [strings.TrimLeftFunc].
  - exists []. repeat split.
  - destruct (f c) eqn:E.
    + destruct IH as (pre & Hs & Hp & Hh). exists (c :: pre).
      cbn [app forallb]. rewrite E, Hp. repeat split; [|exact Hh].
      now rewrite <- Hs.
    + exists []. repeat split. exact E.
Qed.

Lemma TrimLeftFunc_all (s : gostring) (f : rune -> bool) :
  forallb f s = true -> strings.TrimLeftFunc s f = [].
Proof.
  induction s as [|c t IH]; cbn [forallb strings.TrimLeftFunc]; [reflexivity|].
  intros H. apply andb_true_iff in H as [-> H]. exact (IH H).
Qed.

Lemma TrimLeftFunc_head (c : rune) (t : gostring) (f : rune -> bool) :
  f c = false -> strings.TrimLeftFunc (c :: t) f = c :: t.
Proof. intros H. cbn [strings.TrimLeftFunc]. now rewrite H. Qed.

Lemma forallb_rev_true (f : rune -> bool) (s : gostring) :
  forallb f (rev s) = true -> forallb f s = true.
Proof.
  rewrite !forallb_forall. intros H x Hx. apply H. now apply in_rev in Hx.
Qed.

(** What is left after trimming is empty, or begins and ends with a rune
    that is not trimmed. *)
Lemma TrimFunc_ends (s : gostring) (f : rune -> bool) :
  strings.TrimFunc s f = [] \/
  exists c w x d,
    strings.TrimFunc s f = c :: w /\ strings.TrimFunc s f = x ++ [d] /\
    f c = false /\ f d = false.
Proof.
  unfold strings.TrimFunc, strings.TrimRightFunc.
  destruct (TrimLeftFunc_split s f) as (pre & _ & _ & Hhead).
  set (t := strings.TrimLeftFunc s f) in *.
  destruct (TrimLeftFunc_split (rev t) f) as (pre' & Hsplit & _ & Hhead').
  destruct (strings.TrimLeftFunc (rev t) f) as [|d u]; [now left|]. right.
  apply rev_eq_app in Hsplit. cbn [rev] in Hsplit |- *.
  destruct (rev u ++ [d]) as [|c w] eqn:E.
  - destruct (rev u); discriminate.
  - exists c, w, (rev u), d. rewrite <- E. repeat split; [|exact Hhead'].
    cbn [app] in Hsplit. rewrite Hsplit in Hhead. exact Hhead.
Qed.

Lemma TrimFunc_idempotent (s : gostring) (f : rune -> bool) :
  strings.TrimFunc (strings.TrimFunc s f) f = strings.TrimFunc s f.
Proof.
  destruct (TrimFunc_ends s f) as [-> | (c & w & x & d & Hc & Hx & Hfc & Hfd)];
    [reflexivity|].
  unfold strings.TrimFunc at 1. rewrite Hc at 1.
  rewrite (TrimLeftFunc_head _ _ _ Hfc), <- Hc, Hx.
  unfold strings.TrimRightFunc. rewrite rev_app_distr. cbn [rev app].
  rewrite (TrimLeftFunc_head _ _ _ Hfd).
  change (d :: rev x) with (rev [d] ++ rev x). now rewrite <- rev_app_distr, rev_involutive.
Qed.

Lemma TrimSpace_nil_iff (s : gostring) :
  strings.TrimSpace s = [] <-> forallb strings.IsSpace s = true.
Proof.
  unfold strings.TrimSpace, strings.TrimFunc, strings.TrimRightFunc. split.
  - intros H. apply (f_equal (@rev rune)) in H. rewrite rev_involutive in H.
    cbn [rev] in H.
    destruct (TrimLeftFunc_split s strings.IsSpace) as (pre & Hs & Hp & Hhead).
    destruct (TrimLeftFunc_split (rev (strings.TrimLeftFunc s strings.IsSpace))
                strings.IsSpace) as (pre' & Hs' & Hp' & _).
    rewrite H, app_nil_r in Hs'. rewrite <- Hs' in Hp'.
    apply forallb_rev_true in Hp'.
    destruct (strings.TrimLeftFunc s strings.IsSpace) as [|c t].
    + rewrite app_nil_r in Hs. now rewrite Hs.
    + cbn [forallb] in Hp'. rewrite Hhead in Hp'. discriminate.
  - intros H. now rewrite (TrimLeftFunc_all _ _ H).
Qed.

Lemma blank_iff (value : gostring) :
  blank value = true <-> forallb strings.IsSpace value = true.
Proof.
  rewrite <- TrimSpace_nil_iff. unfold blank.
  destruct (strings.TrimSpace value); split; congruence.
Qed.

(** ** [parseMoney] and [ParseAccountBalance] *)

Lemma Map_app (mapping : rune -> rune) (a b : gostring) :
  strings.Map mapping (a ++ b) = strings.Map mapping a ++ strings.Map mapping b.
Proof.
  induction a as [|c t IH]; cbn [app strings.Map]; [reflexivity|].
  destruct (0 <=? mapping c); cbn [app]; now rewrite IH.
Qed.

(** X1. A '$', ',' or '.' counts for nothing wherever it stands: the text
    with the sign and the text without it are read alike, so that the
    place of the decimal point does not scale the amount. *)
Theorem parseMoney_ignores_punctuation (a b : gostring) (c : rune) :
  isMoneyPunct c = true ->
  parseMoney (a ++ c :: b) = parseMoney (a ++ b).
Proof.
  intros Hc. unfold parseMoney. rewrite !Map_app. do 2 f_equal.
  cbn [strings.Map]. rewrite IndexRune_punct, Hc. reflexivity.
Qed.

Lemma parseMoney_ignores_punctuation_witness :
  parseMoney (str "12" ++ 46 :: str "5") = parseMoney (str "12" ++ str "5").
Proof.
  apply (parseMoney_ignores_punctuation (str "12") (str "5") 46).
  vm_compute. reflexivity.
Defined.

Lemma ParseAccountBalance_ok_range page balance :
  ParseAccountBalance page = (balance, None) -> minInt64 <= balance <= maxInt64.
Proof.
  unfold ParseAccountBalance.
  destruct (length (balanceSpans page)); [discriminate|].
  destruct (parseMoney _) as [b [err|]] eqn:E; [discriminate|].
  intros [= <-]. exact (parseMoney_ok_range _ _ E).
Qed.

(** X2. [ParseAccountBalance] reads the last of the elements matched by
    the balance selector and no other: it returns what [parseMoney] reads
    there, and the balance 0 with the error of [parseMoney] when that text
    is no amount; without any element it returns 0 and the error "Unable
    to find account balance in page".  A balance returned without error
    fits 64 bits. *)
Theorem balance_from_last_element (rows : list (list gostring))
    (spans : list gostring) (value : gostring) :
  ParseAccountBalance (mkPage rows (spans ++ [value]))
  = match parseMoney value with
    | (balance, None) => (balance, None)
    | (_, Some err) => (0, Some err)
    end /\
  ParseAccountBalance (mkPage rows [])
  = (0, Some (errorString "Unable to find account balance in page")) /\
  (forall page balance,
      ParseAccountBalance page = (balance, None) -> minInt64 <= balance <= maxInt64).
Proof.
  split; [|split; [reflexivity|]].
  - unfold ParseAccountBalance. cbn [balanceSpans].
    rewrite length_app. cbn [length]. rewrite Nat.add_1_r.
    rewrite Nat.sub_succ, Nat.sub_0_r, app_nth2, Nat.sub_diag by lia. cbn [nth].
    now destruct (parseMoney value) as [balance [err|]].
  - exact ParseAccountBalance_ok_range.
Qed.

Lemma balance_from_last_element_witness :
  minInt64 <= 10000 <= maxInt64.
Proof.
  apply (proj2 (proj2 (balance_from_last_element [] [] [])) pageCard 10000).
  vm_compute. reflexivity.
Defined.

(** ** The security question of [Login] *)

Lemma chooseAnswer_keep (answers : list (gostring * gostring)) (question answer : gostring) :
  (forall q a, In (q, a) answers -> strings.HasPrefix question q = true -> a = answer) ->
  fold_left
    (fun answer qa => let '(q, a) := qa in
                      if strings.HasPrefix question q then a else answer)
    answers answer = answer.
Proof.
  induction answers as [|[q a] t IH]; intros H; cbn [fold_left]; [reflexivity|].
  destruct (strings.HasPrefix question q) eqn:E.
  - rewrite (H q a (or_introl eq_refl) E). apply IH.
    intros q' a' Hin. apply H. now right.
  - apply IH. intros q' a' Hin. apply H. now right.
Qed.

Lemma chooseAnswer_shared (answers : list (gostring * gostring))
    (question answer init : gostring) :
  (forall q a, In (q, a) answers -> strings.HasPrefix question q = true -> a = answer) ->
  (exists q a, In (q, a) answers /\ strings.HasPrefix question q = true) ->
  fold_left
    (fun answer qa => let '(q, a) := qa in
                      if strings.HasPrefix question q then a else answer)
    answers init = answer.
Proof.
  revert init. induction answers as [|[q a] t IH]; intros init H (q0 & a0 & Hin & Hm);
    [destruct Hin|].
  cbn [fold_left]. destruct (strings.HasPrefix question q) eqn:E.
  - rewrite (H q a (or_introl eq_refl) E). apply chooseAnswer_keep.
    intros q' a' Hin'. apply H. now right.
  - apply IH; [intros q' a' Hin'; apply H; now right|].
    destruct Hin as [[= -> ->] | Hin]; [congruence|]. eauto.
Qed.

Lemma chooseAnswer_unmatched (answers : list (gostring * gostring)) (question : gostring) :
  (forall q a, In (q, a) answers -> strings.HasPrefix question q = false) ->
  chooseAnswer answers question = [].
Proof.
  intros H. apply chooseAnswer_keep. intros q a Hin Hm.
  rewrite (H q a Hin) in Hm. discriminate.
Qed.

(** X3. The answer that [Login] gives is the one of the last key, in the
    order of the iteration over the map, that is a prefix of the question:
    when several keys with different answers are prefixes of it, the
    answer depends on the order in which Go iterates. *)
Theorem answer_of_last_matching_key (before after : list (gostring * gostring))
    (q a question : gostring) :
  strings.HasPrefix question q = true ->
  (forall q' a', In (q', a') after -> strings.HasPrefix question q' = false) ->
  chooseAnswer (before ++ (q, a) :: after) question = a.
Proof.
  intros Hq Hafter. unfold chooseAnswer. rewrite fold_left_app. cbn [fold_left].
  rewrite Hq. apply chooseAnswer_keep. intros q' a' Hin Hm.
  rewrite (Hafter q' a' Hin) in Hm. discriminate.
Qed.

Lemma answer_of_last_matching_key_witness :
  chooseAnswer ([(str "What", str "red")] ++ (str "What is", str "blue") :: [(str "Who", str "me")])
               (str "What is your favourite colour?")
  = str "blue".
Proof.
  apply answer_of_last_matching_key.
  - vm_compute. reflexivity.
  - intros q' a' [[= <- <-] | []]. vm_compute. reflexivity.
Defined.

(** X4. When all the keys that are prefixes of the question have the same
    answer, in particular when one key at most is a prefix of it, the
    answer does not depend on the order of the iteration; and when no key
    is a prefix of the question there is no answer, and [Login] ends the
    program. *)
Theorem answer_independent_of_order (answers answers' : list (gostring * gostring))
    (question : gostring) :
  Permutation answers answers' ->
  (forall q1 a1 q2 a2,
      In (q1, a1) answers -> In (q2, a2) answers ->
      strings.HasPrefix question q1 = true -> strings.HasPrefix question q2 = true ->
      a1 = a2) ->
  chooseAnswer answers question = chooseAnswer answers' question /\
  ((forall q a, In (q, a) answers -> strings.HasPrefix question q = false) ->
   securityAnswer answers' question = None).
Proof.
  intros Hperm Hshared. split.
  - destruct (existsb (fun qa => strings.HasPrefix question (fst qa)) answers) eqn:E.
    + apply existsb_exists in E as ([q a] & Hin & Hm). cbn [fst] in Hm.
      transitivity a; [|symmetry]; apply chooseAnswer_shared.
      * intros q' a' Hin' Hm'. exact (Hshared _ _ _ _ Hin' Hin Hm' Hm).
      * eauto.
      * intros q' a' Hin' Hm'. apply (Permutation_in _ (Permutation_sym Hperm)) in Hin'.
        exact (Hshared _ _ _ _ Hin' Hin Hm' Hm).
      * exists q, a. split; [exact (Permutation_in _ Hperm Hin) | exact Hm].
    + assert (Hnone : forall q a, In (q, a) answers ->
                                  strings.HasPrefix question q = false).
      { intros q a Hin. destruct (strings.HasPrefix question q) eqn:Hm; [|reflexivity].
        assert (Hex : existsb (fun qa => strings.HasPrefix question (fst qa)) answers = true)
          by (apply existsb_exists; exists (q, a); auto).
        congruence. }
      rewrite (chooseAnswer_unmatched _ _ Hnone). symmetry.
      apply chooseAnswer_unmatched. intros q a Hin.
      exact (Hnone q a (Permutation_in _ (Permutation_sym Hperm) Hin)).
  - intros Hnone. unfold securityAnswer. rewrite chooseAnswer_unmatched; [reflexivity|].
    intros q a Hin. exact (Hnone q a (Permutation_in _ (Permutation_sym Hperm) Hin)).
Qed.

Lemma answer_independent_of_order_witness :
  chooseAnswer [(str "What is", str "blue"); (str "Who", str "me")]
               (str "What is your favourite colour?")
  = chooseAnswer [(str "Who", str "me"); (str "What is", str "blue")]
                 (str "What is your favourite colour?").
Proof.
  refine (proj1 (answer_independent_of_order
                   [(str "What is", str "blue"); (str "Who", str "me")]
                   [(str "Who", str "me"); (str "What is", str "blue")]
                   (str "What is your favourite colour?")
                   (perm_swap _ _ []) _)).
  intros q1 a1 q2 a2 [[= <- <-] | [[= <- <-] | []]] [[= <- <-] | [[= <- <-] | []]];
    vm_compute; intros H1 H2; try reflexivity; discriminate.
Defined.

(** ** The field handlers and the loop over the columns *)

Section Coverage.

Variable ParseLocal : gostring -> gotime.Time * option error.

Ltac handler_cases H :=
  destruct (lookupHandler_cases _ _ _ H)
    as [[-> ->]|[[-> ->]|[[-> ->]|[[-> ->]|[[-> ->]|[-> ->]]]]]].

Ltac unfold_handler :=
  unfold DateFromString, TypeFromString, DescriptionFromString,
    DebitFromString, CreditFromString, BalanceFromString.

Lemma str_neq (a b : gostring) : gostring_eqb a b = false -> a <> b.
Proof. intros H E. apply gostring_eqb_eq in E. congruence. Qed.

(** Each handler writes the field of its own name and no other; none
    writes [Index]. *)
Lemma handler_frame field method record value :
  lookupHandler ParseLocal field = Some method ->
  Index (fst (method record value)) = Index record /\
  (field <> str "Date" -> Date (fst (method record value)) = Date record) /\
  (field <> str "Type" -> Type_ (fst (method record value)) = Type_ record) /\
  (field <> str "Description" ->
   Description (fst (method record value)) = Description record) /\
  (field <> str "Debit" -> Debit (fst (method record value)) = Debit record) /\
  (field <> str "Credit" -> Credit (fst (method record value)) = Credit record) /\
  (field <> str "Account Balance" ->
   Balance (fst (method record value)) = Balance record).
Proof.
  intros H. handler_cases H; unfold_handler.
  - destruct (ParseLocal _) as [d [e|]]; cbn [fst]; repeat split; intros Hne;
      try reflexivity; now contradiction Hne.
  - cbn [fst]; repeat split; intros Hne; try reflexivity; now contradiction Hne.
  - cbn [fst]; repeat split; intros Hne; try reflexivity; now contradiction Hne.
  - destruct (strings.TrimSpace value) as [|c t];
      [|destruct (parseMoney (c :: t)) as [v [e|]]];
      cbn [fst]; repeat split; intros Hne; try reflexivity; now contradiction Hne.
  - destruct (strings.TrimSpace value) as [|c t];
      [|destruct (parseMoney (c :: t)) as [v [e|]]];
      cbn [fst]; repeat split; intros Hne; try reflexivity; now contradiction Hne.
  - destruct (strings.TrimSpace value) as [|c t];
      [|destruct (parseMoney (c :: t)) as [v [e|]]];
      cbn [fst]; repeat split; intros Hne; try reflexivity; now contradiction Hne.
Qed.

Lemma handler_Balance field method record value :
  lookupHandler ParseLocal field = Some method ->
  Balance (fst (method record value)) = Balance record \/
  field = str "Account Balance" /\ blank value = false /\
  parseMoney (strings.TrimSpace value) = (Balance (fst (method record value)), None).
Proof.
  intros H.
  destruct (list_eq_dec Z.eq_dec field (str "Account Balance")) as [-> | Hne].
  - assert (method = BalanceFromString) as ->.
    { assert (E : lookupHandler ParseLocal (str "Account Balance")
                  = Some BalanceFromString) by reflexivity.
      congruence. }
    unfold BalanceFromString, blank.
    destruct (strings.TrimSpace value) as [|c t] eqn:Et; [now left|].
    destruct (parseMoney (c :: t)) as [v [e|]] eqn:Ep; [now left|].
    right. cbn [fst Balance set_Balance]. auto.
  - left. now apply (handler_frame _ _ record value H).
Qed.

Lemma lookupHandler_money :
  lookupHandler ParseLocal (str "Debit") = Some DebitFromString /\
  lookupHandler ParseLocal (str "Credit") = Some CreditFromString /\
  lookupHandler ParseLocal (str "Account Balance") = Some BalanceFromString.
Proof. repeat split; reflexivity. Qed.

(** X5. A handler that reports an error leaves the record as it was, and
    the handlers of "Type" and "Description" never report one. *)
Theorem handler_error_keeps_record field method record value err :
  lookupHandler ParseLocal field = Some method ->
  snd (method record value) = Some err ->
  fst (method record value) = record /\
  field <> str "Type" /\ field <> str "Description".
Proof.
  intros H. handler_cases H; unfold_handler.
  - destruct (ParseLocal _) as [d [e|]]; cbn [fst snd]; [|discriminate].
    intros _. repeat split; apply str_neq; reflexivity.
  - discriminate.
  - discriminate.
  - destruct (strings.TrimSpace value) as [|c t];
      [|destruct (parseMoney (c :: t)) as [v [e|]]]; cbn [fst snd]; try discriminate.
    intros _. repeat split; apply str_neq; reflexivity.
  - destruct (strings.TrimSpace value) as [|c t];
      [|destruct (parseMoney (c :: t)) as [v [e|]]]; cbn [fst snd]; try discriminate.
    intros _. repeat split; apply str_neq; reflexivity.
  - destruct (strings.TrimSpace value) as [|c t];
      [|destruct (parseMoney (c :: t)) as [v [e|]]]; cbn [fst snd]; try discriminate.
    intros _. repeat split; apply str_neq; reflexivity.
Qed.

(** X6. A cell of white space only is no error for the handlers of
    "Debit", "Credit" and "Account Balance": they leave the record as it
    was and report nothing. *)
Theorem blank_money_cell_is_skipped field method record value :
  lookupHandler ParseLocal field = Some method ->
  field = str "Debit" \/ field = str "Credit" \/ field = str "Account Balance" ->
  forallb strings.IsSpace value = true ->
  method record value = (record, None).
Proof.
  intros H Hfield Hblank. apply TrimSpace_nil_iff in Hblank.
  assert (Hm : method = DebitFromString \/ method = CreditFromString \/
               method = BalanceFromString).
  { destruct lookupHandler_money as (E1 & E2 & E3).
    destruct Hfield as [-> | [-> | ->]];
      [left | right; left | right; right]; congruence. }
  destruct Hm as [-> | [-> | ->]]; unfold_handler; now rewrite Hblank.
Qed.

(** *** The loop over the columns, one column at a time *)

Lemma fillRecord_S m fieldNames cells :
  fillRecord ParseLocal (S m) fieldNames cells =
    match lookupHandler ParseLocal (nth m fieldNames []) with
    | Some method =>
        fst (method (fillRecord ParseLocal m fieldNames cells) (nth m cells []))
    | None => fillRecord ParseLocal m fieldNames cells
    end.
Proof. unfold fillRecord. now rewrite seq_S, fold_left_app. Qed.

Lemma fillRecord_cells m header cells cells' :
  (forall j, (j < m)%nat -> lookupHandler ParseLocal (nth j header []) <> None ->
             nth j cells [] = nth j cells' []) ->
  fillRecord ParseLocal m header cells = fillRecord ParseLocal m header cells'.
Proof.
  induction m as [|m IH]; intros H; [reflexivity|].
  rewrite !fillRecord_S, IH by (intros j Hj; apply H; lia).
  match goal with
  | |- match ?x with _ => _ end = _ => destruct x as [method|] eqn:E
  end; [|reflexivity].
  f_equal. f_equal. apply (H m); [lia|].
  intros Hn. pose proof (eq_trans (eq_sym E) Hn) as X. discriminate X.
Qed.

Lemma rows_agree m header hasBalance (R : list gostring -> list gostring -> Prop)
    dataRows dataRows' st :
  (forall cells cells', R cells cells' ->
     fillRecord ParseLocal m header cells = fillRecord ParseLocal m header cells') ->
  Forall2 R dataRows dataRows' ->
  fold_left (rowStep ParseLocal m header hasBalance) dataRows st
  = fold_left (rowStep ParseLocal m header hasBalance) dataRows' st.
Proof.
  intros HR H. revert st. induction H as [|cells cells' l l' Hc _ IH]; intros st;
    [reflexivity|].
  cbn [fold_left]. rewrite <- IH. f_equal.
  unfold rowStep. destruct st as [history balance]. now rewrite (HR _ _ Hc).
Qed.

Lemma ParseAccountHistory_rows_agree (R : list gostring -> list gostring -> Prop)
    header dataRows dataRows' spans :
  (forall cells cells', R cells cells' ->
     fillRecord ParseLocal (length header) header cells
     = fillRecord ParseLocal (length header) header cells') ->
  Forall2 R dataRows dataRows' ->
  ParseAccountHistory ParseLocal (mkPage (header :: dataRows) spans)
  = ParseAccountHistory ParseLocal (mkPage (header :: dataRows') spans).
Proof.
  intros HR H.
  rewrite (ParseAccountHistory_eq ParseLocal (mkPage (header :: dataRows) spans)
             header dataRows eq_refl).
  rewrite (ParseAccountHistory_eq ParseLocal (mkPage (header :: dataRows') spans)
             header dataRows' eq_refl).
  change (ParseAccountBalance (mkPage (header :: dataRows) spans))
    with (ParseAccountBalance (mkPage (header :: dataRows') spans)).
  destruct (if negb (hasBalanceColumn header)
            then ParseAccountBalance (mkPage (header :: dataRows') spans)
            else (0, None)) as [balance [err|]]; [reflexivity|].
  now rewrite (rows_agree _ _ _ R dataRows dataRows' _ HR H).
Qed.

(** X7. Only the cells under the six headers that have a handler are
    read: two tables with the same header row whose rows agree on these
    cells, whatever they hold under other headers or beyond the width of
    the header row, give the same result. *)
Theorem unhandled_cells_are_not_read header dataRows dataRows' spans :
  Forall2
    (fun cells cells' =>
       forall j, (j < length header)%nat ->
                 lookupHandler ParseLocal (nth j header []) <> None ->
                 nth j cells [] = nth j cells' [])
    dataRows dataRows' ->
  ParseAccountHistory ParseLocal (mkPage (header :: dataRows) spans)
  = ParseAccountHistory ParseLocal (mkPage (header :: dataRows') spans).
Proof.
  apply ParseAccountHistory_rows_agree. intros cells cells'. apply fillRecord_cells.
Qed.

Lemma nth_padRow m cells j :
  (j < m)%nat -> nth j (padRow m cells) [] = nth j cells [].
Proof.
  intros Hj. unfold padRow. rewrite nth_firstn.
  destruct (j <? m)%nat eqn:E; [|apply Nat.ltb_ge in E; lia].
  destruct (Nat.lt_ge_cases j (length cells)) as [Hl | Hl].
  - now apply app_nth1.
  - rewrite app_nth2, (nth_overflow cells) by exact Hl.
    destruct (Nat.lt_ge_cases (j - length cells) m) as [Hr | Hr].
    + now apply nth_repeat_lt.
    + apply nth_overflow. now rewrite repeat_length.
Qed.

(** X8. A data row that has fewer cells than the header row is read as if
    it ended with empty cells, and the cells of a row beyond the width of
    the header row are not read: cutting or padding every data row to the
    width of the header row does not change the result. *)
Theorem rows_read_at_header_width header dataRows spans :
  ParseAccountHistory ParseLocal (mkPage (header :: dataRows) spans)
  = ParseAccountHistory ParseLocal
      (mkPage (header :: map (padRow (length header)) dataRows) spans).
Proof.
  apply (ParseAccountHistory_rows_agree
           (fun cells cells' => cells' = padRow (length header) cells)).
  - intros cells cells' ->. apply fillRecord_cells.
    intros j Hj _. symmetry. now apply nth_padRow.
  - induction dataRows as [|cells t IH]; constructor; [reflexivity | exact IH].
Qed.

(** *** One column at a time *)

Lemma fillRecord_column {A : Type} (F : HistoryRecord -> A) name method m header cells :
  lookupHandler ParseLocal name = Some method ->
  (forall r r' v, F r = F r' -> F (fst (method r v)) = F (fst (method r' v))) ->
  (forall field method' r v,
      lookupHandler ParseLocal field = Some method' -> field <> name ->
      F (fst (method' r v)) = F r) ->
  F (fillRecord ParseLocal m header cells)
  = F (applyColumn method (cellsUnderFirst m name header cells)).
Proof.
  intros Hname Hcong Hframe. induction m as [|m IH]; [reflexivity|].
  rewrite fillRecord_S. unfold cellsUnderFirst, applyColumn.
  rewrite seq_S, filter_app, map_app, fold_left_app.
  change (fold_left (fun record value => fst (method record value))
            (map (fun j => nth j cells [])
               (filter (fun j => gostring_eqb (nth j header []) name) (seq 0 m)))
            emptyRecord)
    with (applyColumn method (cellsUnderFirst m name header cells)).
  cbn [Nat.add filter].
  destruct (gostring_eqb (nth m header []) name) eqn:E; cbn [map fold_left].
  - apply gostring_eqb_eq in E.
    assert (Hm : lookupHandler ParseLocal (nth m header []) = Some method)
      by (rewrite E; exact Hname).
    match goal with
    | |- F (match ?x with _ => _ end) = _ =>
        replace x with (Some method) by (symmetry; exact Hm)
    end.
    apply Hcong. exact IH.
  - apply str_neq in E.
    match goal with
    | |- F (match ?x with _ => _ end) = _ => destruct x as [method'|] eqn:Em
    end; [|exact IH].
    rewrite <- IH. exact (Hframe _ _ _ _ Em E).
Qed.

Lemma lookupHandler_others :
  lookupHandler ParseLocal (str "Date") = Some (DateFromString ParseLocal) /\
  lookupHandler ParseLocal (str "Type") = Some TypeFromString /\
  lookupHandler ParseLocal (str "Description") = Some DescriptionFromString.
Proof. repeat split; reflexivity. Qed.

(** Every field of the record of a row is what its own handler makes of
    the cells under its own header, from left to right. *)
Lemma fillRecord_columns header cells :
  let r := fillRecord ParseLocal (length header) header cells in
  Date r = Date (applyColumn (DateFromString ParseLocal)
                   (cellsUnder (str "Date") header cells)) /\
  Type_ r = Type_ (applyColumn TypeFromString (cellsUnder (str "Type") header cells)) /\
  Description r = Description (applyColumn DescriptionFromString
                                 (cellsUnder (str "Description") header cells)) /\
  Debit r = Debit (applyColumn DebitFromString (cellsUnder (str "Debit") header cells)) /\
  Credit r = Credit (applyColumn CreditFromString
                       (cellsUnder (str "Credit") header cells)) /\
  Balance r = Balance (applyColumn BalanceFromString
                         (cellsUnder (str "Account Balance") header cells)).
Proof.
  destruct lookupHandler_money as (E4 & E5 & E6).
  destruct lookupHandler_others as (E1 & E2 & E3).
  cbv zeta. repeat split.
  - apply (fillRecord_column Date _ _ _ _ _ E1).
    + intros r r' v H. unfold DateFromString.
      now destruct (ParseLocal _) as [d [e|]].
    + intros field method' r v Hm Hne. now apply (handler_frame _ _ r v Hm).
  - apply (fillRecord_column Type_ _ _ _ _ _ E2).
    + reflexivity.
    + intros field method' r v Hm Hne. now apply (handler_frame _ _ r v Hm).
  - apply (fillRecord_column Description _ _ _ _ _ E3).
    + reflexivity.
    + intros field method' r v Hm Hne. now apply (handler_frame _ _ r v Hm).
  - apply (fillRecord_column Debit _ _ _ _ _ E4).
    + intros r r' v H. unfold DebitFromString.
      destruct (strings.TrimSpace v) as [|c t]; [exact H|].
      now destruct (parseMoney (c :: t)) as [x [e|]].
    + intros field method' r v Hm Hne. now apply (handler_frame _ _ r v Hm).
  - apply (fillRecord_column Credit _ _ _ _ _ E5).
    + intros r r' v H. unfold CreditFromString.
      destruct (strings.TrimSpace v) as [|c t]; [exact H|].
      now destruct (parseMoney (c :: t)) as [x [e|]].
    + intros field method' r v Hm Hne. now apply (handler_frame _ _ r v Hm).
  - apply (fillRecord_column Balance _ _ _ _ _ E6).
    + intros r r' v H. unfold BalanceFromString.
      destruct (strings.TrimSpace v) as [|c t]; [exact H|].
      now destruct (parseMoney (c :: t)) as [x [e|]].
    + intros field method' r v Hm Hne. now apply (handler_frame _ _ r v Hm).
Qed.

Lemma applyColumn_snoc method cells cell :
  applyColumn method (cells ++ [cell])
  = fst (method (applyColumn method cells) cell).
Proof. unfold applyColumn. now rewrite fold_left_app. Qed.

Lemma applyColumn_Type cells :
  Type_ (applyColumn TypeFromString cells) = strings.TrimSpace (last cells []).
Proof.
  destruct cells as [|c t] using rev_ind; [reflexivity|].
  now rewrite applyColumn_snoc, last_last.
Qed.

Lemma applyColumn_Description cells :
  Description (applyColumn DescriptionFromString cells)
  = strings.TrimSpace (last cells []).
Proof.
  destruct cells as [|c t] using rev_ind; [reflexivity|].
  now rewrite applyColumn_snoc, last_last.
Qed.

Lemma applyColumn_Debit init cell v :
  blank cell = false -> parseMoney (strings.TrimSpace cell) = (v, None) ->
  Debit (applyColumn DebitFromString (init ++ [cell])) = v.
Proof.
  intros Hb Hp. rewrite applyColumn_snoc. unfold DebitFromString, blank in *.
  destruct (strings.TrimSpace cell) as [|c t]; [discriminate|]. now rewrite Hp.
Qed.

Lemma applyColumn_Credit init cell v :
  blank cell = false -> parseMoney (strings.TrimSpace cell) = (v, None) ->
  Credit (applyColumn CreditFromString (init ++ [cell])) = v.
Proof.
  intros Hb Hp. rewrite applyColumn_snoc. unfold CreditFromString, blank in *.
  destruct (strings.TrimSpace cell) as [|c t]; [discriminate|]. now rewrite Hp.
Qed.

Lemma applyColumn_Balance init cell v :
  blank cell = false -> parseMoney (strings.TrimSpace cell) = (v, None) ->
  Balance (applyColumn BalanceFromString (init ++ [cell])) = v.
Proof.
  intros Hb Hp. rewrite applyColumn_snoc. unfold BalanceFromString, blank in *.
  destruct (strings.TrimSpace cell) as [|c t]; [discriminate|]. now rewrite Hp.
Qed.

Lemma applyColumn_Date init cell d :
  ParseLocal (strings.TrimSpace cell) = (d, None) ->
  Date (applyColumn (DateFromString ParseLocal) (init ++ [cell])) = d.
Proof.
  intros Hp. rewrite applyColumn_snoc. unfold DateFromString. now rewrite Hp.
Qed.

Lemma trimmed_TrimSpace (s : gostring) : trimmed (strings.TrimSpace s).
Proof.
  unfold strings.TrimSpace, trimmed.
  destruct (TrimFunc_ends s strings.IsSpace)
    as [-> | (c & w & x & d & Hc & Hx & Hfc & Hfd)]; [exact I|].
  rewrite Hc. split; [exact Hfc|]. rewrite <- Hc, Hx, last_last. exact Hfd.
Qed.

(** What [ParseAccountHistory] returns: no record, or the records of a
    success on a table with a header row. *)
Lemma ParseAccountHistory_cases page :
  fst (ParseAccountHistory ParseLocal page) = [] \/
  exists header dataRows,
    historyRows page = header :: dataRows /\
    ParseAccountHistory ParseLocal page
    = (fst (ParseAccountHistory ParseLocal page), None).
Proof.
  destruct (historyRows page) as [|header dataRows] eqn:Hrows.
  - left. unfold ParseAccountHistory. now rewrite Hrows.
  - rewrite (ParseAccountHistory_eq _ _ _ _ Hrows).
    destruct (if negb (hasBalanceColumn header) then ParseAccountBalance page else (0, None))
      as [balance [err|]]; [now left|].
    right. exists header, dataRows. split; reflexivity.
Qed.

(** X9. No column has an influence on the field of another header: the
    [Date], [Type], [Description], [Debit] and [Credit] of a record are
    what the handler of that header makes of the cells of the row under
    that header alone, taken from left to right from the empty record. *)
Theorem columns_do_not_interfere page out header dataRows :
  historyRows page = header :: dataRows ->
  ParseAccountHistory ParseLocal page = (out, None) ->
  Forall2 (readsOwnColumns ParseLocal header) out (rev dataRows).
Proof.
  intros Hrows Hok.
  pose proof (ParseAccountHistory_fromRow _ _ _ _ _ Hrows Hok) as H.
  eapply Forall2_impl; [|exact H].
  intros r cells (H1 & H2 & H3 & H4 & H5). unfold readsOwnColumns.
  destruct (fillRecord_columns header cells) as (C1 & C2 & C3 & C4 & C5 & _).
  rewrite H1, H2, H3, H4, H5. repeat split; assumption.
Qed.

(** X10. The value of a cell lands in the record: when the last cell of a
    row under "Debit" is not blank and [parseMoney] reads it, that value
    is the [Debit] of the record, whatever the cells under "Debit" before
    it hold; likewise for "Credit", and for "Date" with the date parser. *)
Theorem last_cell_of_a_header_wins page out header dataRows :
  historyRows page = header :: dataRows ->
  ParseAccountHistory ParseLocal page = (out, None) ->
  Forall2 (lastCellWins ParseLocal header) out (rev dataRows).
Proof.
  intros Hrows Hok.
  pose proof (ParseAccountHistory_fromRow _ _ _ _ _ Hrows Hok) as H.
  eapply Forall2_impl; [|exact H].
  intros r cells (H1 & _ & _ & H4 & H5). unfold lastCellWins.
  destruct (fillRecord_columns header cells) as (C1 & _ & _ & C4 & C5 & _).
  rewrite H1, H4, H5, C1, C4, C5. repeat split.
  - intros init cell v ->. apply applyColumn_Debit.
  - intros init cell v ->. apply applyColumn_Credit.
  - intros init cell d ->. apply applyColumn_Date.
Qed.

(** X11. [Type] and [Description] of every record are the text of the
    last cell of the row under their header, without the white space
    around it (the empty text when the header row has no such cell): they
    neither begin nor end with white space. *)
Theorem text_fields_are_trimmed page out header dataRows :
  historyRows page = header :: dataRows ->
  ParseAccountHistory ParseLocal page = (out, None) ->
  Forall2 (readsTrimmedText header) out (rev dataRows).
Proof.
  intros Hrows Hok.
  pose proof (ParseAccountHistory_fromRow _ _ _ _ _ Hrows Hok) as H.
  eapply Forall2_impl; [|exact H].
  intros r cells (_ & H2 & H3 & _). unfold readsTrimmedText.
  destruct (fillRecord_columns header cells) as (_ & C2 & C3 & _).
  rewrite H2, H3, C2, C3, applyColumn_Type, applyColumn_Description.
  repeat split; apply trimmed_TrimSpace.
Qed.

(** *** Success, and the balance *)

(** X12. [ParseAccountHistory] succeeds exactly when the table has a
    header row and either one of its cells contains "Balance" or
    [ParseAccountBalance] succeeds: no cell of a data row can make it
    fail. *)
Theorem success_depends_on_header_and_seed page :
  snd (ParseAccountHistory ParseLocal page) = None <->
  exists header dataRows,
    historyRows page = header :: dataRows /\
    (hasBalanceColumn header = true \/ snd (ParseAccountBalance page) = None).
Proof.
  split.
  - destruct (historyRows page) as [|header dataRows] eqn:Hrows.
    + unfold ParseAccountHistory. rewrite Hrows. discriminate.
    + rewrite (ParseAccountHistory_eq _ _ _ _ Hrows). intros H.
      exists header, dataRows. split; [reflexivity|].
      destruct (hasBalanceColumn header); [now left | right]. cbn [negb] in H.
      now destruct (ParseAccountBalance page) as [balance [err|]].
  - intros (header & dataRows & Hrows & H).
    rewrite (ParseAccountHistory_eq _ _ _ _ Hrows).
    destruct (hasBalanceColumn header); cbn [negb]; [reflexivity|].
    destruct H as [H | H]; [discriminate|].
    now destruct (ParseAccountBalance page) as [balance [err|]].
Qed.

Lemma rows_verbatim m header (dataRows : list (list gostring)) history balance :
  fst (fold_left (rowStep ParseLocal m header true) dataRows (history, balance))
  = rev (map (fillRecord ParseLocal m header) dataRows) ++ history.
Proof.
  revert history balance. induction dataRows as [|cells t IH]; intros history balance;
    cbn [fold_left map rev]; [reflexivity|].
  destruct (rowStep_fst ParseLocal m header true history balance cells)
    as (record & balance' & -> & _ & Hr & _).
  rewrite IH, (Hr eq_refl), <- app_assoc. reflexivity.
Qed.

Lemma ParseAccountHistory_with_column page header dataRows :
  historyRows page = header :: dataRows ->
  hasBalanceColumn header = true ->
  ParseAccountHistory ParseLocal page
  = (setIndex 0 gotime.zero
       (rev (map (fillRecord ParseLocal (length header) header) dataRows)), None).
Proof.
  intros Hrows Hb. rewrite (ParseAccountHistory_eq _ _ _ _ Hrows), Hb. cbn [negb].
  now rewrite rows_verbatim, app_nil_r.
Qed.

(** X13. When a header cell contains "Balance", the balance shown on the
    page is not looked at: the call succeeds, with the same result
    whatever elements match the balance selector. *)
Theorem balance_column_skips_the_seed header dataRows spans spans' :
  hasBalanceColumn header = true ->
  snd (ParseAccountHistory ParseLocal (mkPage (header :: dataRows) spans)) = None /\
  ParseAccountHistory ParseLocal (mkPage (header :: dataRows) spans)
  = ParseAccountHistory ParseLocal (mkPage (header :: dataRows) spans').
Proof.
  intros Hb.
  rewrite (ParseAccountHistory_with_column (mkPage (header :: dataRows) spans)
             header dataRows eq_refl Hb).
  rewrite (ParseAccountHistory_with_column (mkPage (header :: dataRows) spans')
             header dataRows eq_refl Hb).
  split; reflexivity.
Qed.

(** X14. When a header cell contains "Balance", the [Balance] of a record
    is what [BalanceFromString] makes of the cells of its row under the
    header "Account Balance", the value of the last of them when it is
    not blank and [parseMoney] reads it; and when no header cell is
    "Account Balance" itself, as with a header "Balance", every record has
    the balance 0. *)
Theorem balance_read_from_the_row page out header dataRows :
  historyRows page = header :: dataRows ->
  hasBalanceColumn header = true ->
  ParseAccountHistory ParseLocal page = (out, None) ->
  Forall2 (readsBalanceColumn header) out (rev dataRows).
Proof.
  intros Hrows Hb Hok.
  rewrite (ParseAccountHistory_with_column _ _ _ Hrows Hb) in Hok.
  injection Hok as <-.
  pose proof (setIndex_fields 0 gotime.zero
                (rev (map (fillRecord ParseLocal (length header) header) dataRows))) as Hf.
  rewrite <- map_rev, map_map in Hf. apply map_eq_Forall2 in Hf.
  rewrite <- map_rev.
  eapply Forall2_impl; [|exact Hf].
  intros r cells Heq. cbv beta in Heq.
  apply (f_equal Balance) in Heq. cbn [Balance set_Index] in Heq.
  destruct (fillRecord_columns header cells) as (_ & _ & _ & _ & _ & C6).
  cbv zeta in C6. unfold readsBalanceColumn. rewrite Heq, C6. repeat split.
  - intros init cell v ->. apply applyColumn_Balance.
  - intros Hno. now rewrite (cellsUnder_absent _ _ _ Hno).
Qed.

Lemma indexedFrom_bounds index date out i r :
  indexedFrom index date out -> 0 <= index ->
  nth_error out i = Some r ->
  1 <= Index r <= index + Z.of_nat i + 1.
Proof.
  revert index date i. induction out as [|x rest IH]; intros index date i Hout Hidx Hr;
    [destruct i; discriminate|].
  cbn [indexedFrom] in Hout. destruct Hout as [Hx Hrest].
  assert (Hxb : 1 <= Index x <= index + 1)
    by (destruct (gotime.Equal (Date x) date); lia).
  destruct i as [|i]; cbn [nth_error] in Hr.
  - injection Hr as <-. lia.
  - specialize (IH (Index x) (Date x) i Hrest ltac:(lia) Hr). lia.
Qed.

(** X15. The [Index] of a record of the result is at least 1 and at most
    the place of the record in the result, counted from 1. *)
Theorem index_within_position page i r :
  nth_error (fst (ParseAccountHistory ParseLocal page)) i = Some r ->
  1 <= Index r <= Z.of_nat i + 1.
Proof.
  intros Hr.
  pose proof (indexedFrom_bounds 0 gotime.zero _ i r
                (ParseAccountHistory_indexed ParseLocal page) ltac:(lia) Hr).
  lia.
Qed.

Lemma setIndex_Forall (P : HistoryRecord -> Prop) index date history :
  (forall r v, P r -> P (set_Index r v)) ->
  Forall P history -> Forall P (setIndex index date history).
Proof.
  intros HP H. revert index date.
  induction H as [|r rest Hr _ IH]; intros index date; cbn [setIndex]; [constructor|].
  destruct (gotime.Equal (Date r) date); constructor; auto.
Qed.

Lemma rows_balance_range m header (dataRows : list (list gostring)) history balance :
  minInt64 <= balance <= maxInt64 ->
  Forall (fun r => minInt64 <= Balance r <= maxInt64) history ->
  Forall (fun r => minInt64 <= Balance r <= maxInt64)
         (fst (fold_left (rowStep ParseLocal m header false) dataRows (history, balance))).
Proof.
  revert history balance. induction dataRows as [|cells t IH]; intros history balance Hb Hh;
    cbn [fold_left]; [exact Hh|].
  destruct (rowStep_fst ParseLocal m header false history balance cells)
    as (record & balance' & -> & _ & _ & Hr).
  destruct (Hr eq_refl) as [Hbal ->].
  apply IH; [apply wrap64_range|]. constructor; [now rewrite Hbal | exact Hh].
Qed.

Lemma fillRecord_Balance_range m header cells :
  minInt64 <= Balance (fillRecord ParseLocal m header cells) <= maxInt64.
Proof.
  apply (fillRecord_inv ParseLocal (fun r => minInt64 <= Balance r <= maxInt64)).
  - unfold minInt64, maxInt64. cbn [Balance emptyRecord]. lia.
  - intros j record method _ Hrec Hm.
    destruct (handler_Balance _ _ record (nth j cells []) Hm) as [He | (_ & _ & Hp)].
    + exact (eq_ind_r (fun v => minInt64 <= v <= maxInt64) Hrec He).
    + exact (parseMoney_ok_range _ _ Hp).
Qed.

(** X16. Every [Balance] of a result fits a signed 64-bit integer, be it
    read from the row or reconstructed from the seed: the running balance
    wraps around rather than leaving the range. *)
Theorem balance_fits_int64 page :
  Forall (fun r => minInt64 <= Balance r <= maxInt64)
         (fst (ParseAccountHistory ParseLocal page)).
Proof.
  destruct (historyRows page) as [|header dataRows] eqn:Hrows.
  - unfold ParseAccountHistory. rewrite Hrows. constructor.
  - rewrite (ParseAccountHistory_eq _ _ _ _ Hrows).
    destruct (hasBalanceColumn header) eqn:Hb; cbn [negb].
    + cbn [fst]. apply setIndex_Forall; [intros r v H; exact H|].
      rewrite rows_verbatim, app_nil_r. apply Forall_rev, Forall_map.
      apply Forall_forall. intros cells _. apply fillRecord_Balance_range.
    + destruct (ParseAccountBalance page) as [balance [err|]] eqn:Hseed; [constructor|].
      cbn [fst]. apply setIndex_Forall; [intros r v H; exact H|].
      apply rows_balance_range; [|constructor].
      exact (ParseAccountBalance_ok_range page balance Hseed).
Qed.

(** *** What the handlers leave alone *)

(** X17. A handler changes at most the field that its header names: the
    record after the call and the record before it are equal once that
    field is put aside. *)
Theorem handler_writes_own_field_only field method record value :
  lookupHandler ParseLocal field = Some method ->
  withoutField field (fst (method record value)) = withoutField field record.
Proof.
  intros H. handler_cases H; unfold_handler.
  - now destruct (ParseLocal _) as [d [e|]].
  - reflexivity.
  - reflexivity.
  - destruct (strings.TrimSpace value) as [|c t]; [reflexivity|].
    now destruct (parseMoney (c :: t)) as [v [e|]].
  - destruct (strings.TrimSpace value) as [|c t]; [reflexivity|].
    now destruct (parseMoney (c :: t)) as [v [e|]].
  - destruct (strings.TrimSpace value) as [|c t]; [reflexivity|].
    now destruct (parseMoney (c :: t)) as [v [e|]].
Qed.

Lemma handler_trim field method record value :
  lookupHandler ParseLocal field = Some method ->
  method record (strings.TrimSpace value) = method record value.
Proof.
  intros H.
  assert (E : strings.TrimSpace (strings.TrimSpace value) = strings.TrimSpace value)
    by apply TrimFunc_idempotent.
  handler_cases H; unfold_handler; now rewrite E.
Qed.

Lemma fillRecord_trim m header cells :
  fillRecord ParseLocal m header (map strings.TrimSpace cells)
  = fillRecord ParseLocal m header cells.
Proof.
  induction m as [|m IH]; [reflexivity|].
  rewrite !fillRecord_S, IH.
  match goal with
  | |- match ?x with _ => _ end = _ => destruct x as [method|] eqn:E
  end; [|reflexivity].
  f_equal.
  assert (Hn : nth m (map strings.TrimSpace cells) []
               = strings.TrimSpace (nth m cells []))
    by exact (map_nth strings.TrimSpace cells [] m).
  rewrite Hn. exact (handler_trim _ _ _ _ E).
Qed.

(** X18. The white space around the text of a cell of a data row counts
    for nothing: the table of which every such cell is trimmed gives the
    same result. *)
Theorem cell_padding_is_irrelevant header dataRows spans :
  ParseAccountHistory ParseLocal (mkPage (header :: dataRows) spans)
  = ParseAccountHistory ParseLocal
      (mkPage (header :: map (map strings.TrimSpace) dataRows) spans).
Proof.
  apply (ParseAccountHistory_rows_agree
           (fun cells cells' => cells' = map strings.TrimSpace cells)).
  - intros cells cells' ->. symmetry. apply fillRecord_trim.
  - induction dataRows as [|cells t IH]; constructor; [reflexivity | exact IH].
Qed.

End Coverage.

(** ** What [parseMoney] refuses *)

Lemma decimalInt64_runes (s : gostring) (v : Z) :
  decimalInt64 s = Some v -> forallb isMoneyRune s = true.
Proof.
  assert (Hd : forall l, forallb isDigit l = true -> forallb isMoneyRune l = true).
  { intros l H. rewrite forallb_forall in *. intros x Hx. unfold isMoneyRune.
    now rewrite (H x Hx). }
  assert (Hs : forall neg l, signed neg l <> None -> forallb isMoneyRune l = true).
  { intros neg [|c t]; [intros H; now contradiction H|].
    unfold signed. destruct (forallb isDigit (c :: t)) eqn:E;
      [intros _; now apply Hd | intros H; now contradiction H]. }
  destruct s as [|c t]; [discriminate|].
  unfold decimalInt64. intros H. cbn [forallb].
  destruct (c =? 43) eqn:E43.
  { unfold isMoneyRune at 1. rewrite E43, !orb_true_r. cbn [andb orb].
    apply (Hs false). change (signed false t <> None). unfold signed. now rewrite H. }
  destruct (c =? 45) eqn:E45.
  { unfold isMoneyRune at 1. rewrite E45, !orb_true_r. cbn [andb].
    apply (Hs true). change (signed true t <> None). unfold signed. now rewrite H. }
  change (forallb isMoneyRune (c :: t) = true).
  apply (Hs false). unfold signed. now rewrite H.
Qed.

Lemma In_Map_kept (r : rune) (value : gostring) :
  In r value -> 0 <= r -> isMoneyPunct r = false ->
  In r (strings.Map (fun r => if strings.IndexRune (str "$,.") r <? 0 then r else -1) value).
Proof.
  intros Hin Hr Hp. induction value as [|c t IH]; [destruct Hin|].
  cbn [strings.Map]. destruct Hin as [-> | Hin].
  - rewrite IndexRune_punct, Hp. cbn [negb].
    destruct (0 <=? r) eqn:E; [now left | lia].
  - match goal with
    | |- In _ (if ?b then _ else _) => destruct b
    end; [apply in_cons|]; exact (IH Hin).
Qed.

(** X19. [parseMoney] does not trim and knows no other notation: a text
    that holds a rune other than a digit, '$', ',', '.', '+' or '-', such
    as a blank, is an error.  So is then the balance of a page whose last
    balance element holds such a rune, [ParseAccountBalance] passing its
    text on as it is. *)
Theorem parseMoney_refuses_other_runes (value : gostring) (r : rune) :
  In r value -> 0 <= r -> isMoneyRune r = false ->
  snd (parseMoney value) <> None /\
  forall rows spans,
    snd (ParseAccountBalance (mkPage rows (spans ++ [value]))) <> None.
Proof.
  intros Hin Hr Hm.
  assert (Hp : isMoneyPunct r = false).
  { unfold isMoneyRune in Hm. now destruct (isDigit r), (isMoneyPunct r). }
  assert (Herr : snd (parseMoney value) <> None).
  { unfold parseMoney.
    pose proof (In_Map_kept r value Hin Hr Hp) as Hin'.
    set (s := strings.Map _ value) in *.
    pose proof (ParseInt_decimalInt64 s) as HS.
    destruct (decimalInt64 s) as [v|] eqn:E.
    - apply decimalInt64_runes in E. rewrite forallb_forall in E.
      rewrite (E r Hin') in Hm. discriminate.
    - destruct HS as (v & e & ->). discriminate. }
  split; [exact Herr|].
  intros rows spans. unfold ParseAccountBalance. cbn [balanceSpans].
  rewrite length_app. cbn [length]. rewrite Nat.add_1_r.
  rewrite Nat.sub_succ, Nat.sub_0_r, app_nth2, Nat.sub_diag by lia. cbn [nth].
  destruct (parseMoney value) as [balance [err|]]; [discriminate|].
  now contradiction Herr.
Qed.

(** ** These properties on concrete pages *)

Lemma handler_error_keeps_record_witness :
  fst (DebitFromString emptyRecord (str "abc")) = emptyRecord /\
  str "Debit" <> str "Type" /\ str "Debit" <> str "Description".
Proof.
  apply (handler_error_keeps_record parseNumericDate (str "Debit") DebitFromString
           emptyRecord (str "abc") (NumError ErrSyntax)).
  - reflexivity.
  - vm_compute. reflexivity.
Defined.

Lemma blank_money_cell_is_skipped_witness :
  CreditFromString emptyRecord (str "   ") = (emptyRecord, None).
Proof.
  apply (blank_money_cell_is_skipped parseNumericDate (str "Credit")).
  - reflexivity.
  - right. left. reflexivity.
  - vm_compute. reflexivity.
Defined.

Lemma unhandled_cells_are_not_read_witness :
  ParseAccountHistory parseNumericDate
    (mkPage
       [ [str "Date"; str "Memo"; str "Debit"; str "Account Balance"];
         [str "01/03/2023"; str "x"; str "1.00"; str "99.00"; str "extra"];
         [str "01/02/2023"; str "y"] ] [])
  = ParseAccountHistory parseNumericDate
      (mkPage
         [ [str "Date"; str "Memo"; str "Debit"; str "Account Balance"];
           [str "01/03/2023"; str "other"; str "1.00"; str "99.00"];
           [str "01/02/2023"; str ""; str ""; str ""; str "more"] ] []).
Proof.
  apply unhandled_cells_are_not_read.
  repeat (constructor; [|]);
    try (intros j Hj Hn; destruct j as [|[|[|[|j]]]];
         [vm_compute; reflexivity
         |exfalso; apply Hn; vm_compute; reflexivity
         |vm_compute; reflexivity
         |vm_compute; reflexivity
         |cbn [length] in Hj; lia]).
  constructor.
Defined.

Lemma columns_do_not_interfere_witness :
  Forall2 (readsOwnColumns parseNumericDate (hd [] (historyRows pageCard)))
          (fst (ParseAccountHistory parseNumericDate pageCard))
          (rev (tl (historyRows pageCard))).
Proof.
  apply (columns_do_not_interfere parseNumericDate pageCard); vm_compute; reflexivity.
Defined.

Lemma last_cell_of_a_header_wins_witness :
  Forall2 (lastCellWins parseNumericDate (hd [] (historyRows pageCard)))
          (fst (ParseAccountHistory parseNumericDate pageCard))
          (rev (tl (historyRows pageCard))).
Proof.
  apply (last_cell_of_a_header_wins parseNumericDate pageCard); vm_compute; reflexivity.
Defined.

Lemma text_fields_are_trimmed_witness :
  Forall2 (readsTrimmedText (hd [] (historyRows pageCard)))
          (fst (ParseAccountHistory parseNumericDate pageCard))
          (rev (tl (historyRows pageCard))).
Proof.
  apply (text_fields_are_trimmed parseNumericDate pageCard); vm_compute; reflexivity.
Defined.

Lemma success_depends_on_header_and_seed_witness :
  snd (ParseAccountHistory parseNumericDate pageCard) = None.
Proof.
  apply (proj2 (success_depends_on_header_and_seed parseNumericDate pageCard)).
  exists (hd [] (historyRows pageCard)), (tl (historyRows pageCard)).
  split; [vm_compute; reflexivity|]. right. vm_compute. reflexivity.
Defined.

Lemma balance_column_skips_the_seed_witness :
  snd (ParseAccountHistory parseNumericDate
         (mkPage (hd [] (historyRows pageOldestFirst)
                  :: tl (historyRows pageOldestFirst)) [])) = None /\
  ParseAccountHistory parseNumericDate
    (mkPage (hd [] (historyRows pageOldestFirst) :: tl (historyRows pageOldestFirst)) [])
  = ParseAccountHistory parseNumericDate
      (mkPage (hd [] (historyRows pageOldestFirst) :: tl (historyRows pageOldestFirst))
              [str "no amount"]).
Proof.
  apply balance_column_skips_the_seed. vm_compute. reflexivity.
Defined.

Lemma balance_read_from_the_row_witness :
  Forall2 (readsBalanceColumn (hd [] (historyRows pageBalanceLabel)))
          (fst (ParseAccountHistory parseNumericDate pageBalanceLabel))
          (rev (tl (historyRows pageBalanceLabel))).
Proof.
  apply (balance_read_from_the_row parseNumericDate pageBalanceLabel);
    vm_compute; reflexivity.
Defined.

Lemma index_within_position_witness :
  1 <= Index (nth 1 (fst (ParseAccountHistory parseNumericDate pageOneDay)) emptyRecord)
    <= Z.of_nat 1 + 1.
Proof.
  apply (index_within_position parseNumericDate pageOneDay 1).
  vm_compute. reflexivity.
Defined.

Lemma handler_writes_own_field_only_witness :
  withoutField (str "Debit") (fst (DebitFromString emptyRecord (str "4.50")))
  = withoutField (str "Debit") emptyRecord.
Proof.
  apply (handler_writes_own_field_only parseNumericDate (str "Debit") DebitFromString).
  reflexivity.
Defined.

Lemma parseMoney_refuses_other_runes_witness :
  snd (parseMoney (str " $100.00")) <> None /\
  forall rows spans,
    snd (ParseAccountBalance (mkPage rows (spans ++ [str " $100.00"]))) <> None.
Proof.
  apply (parseMoney_refuses_other_runes (str " $100.00") 32).
  - vm_compute. left. reflexivity.
  - lia.
  - vm_compute. reflexivity.
Defined.
